(** * A virtual DOM: tree model, difference detection, reconciliation, scheduling

    Shallow embedding of [src/view.ts] (the virtual tree, [createElement],
    [detectVirtualDOMDifference], [updateElement], [updateAttributes],
    [updateValue]) and of the [App] class (action dispatch, [resolveNode],
    [scheduleRender], [render]).

    Conventions of the embedding.
    - A reference that JavaScript may find [undefined] is an [option]:
      [None] is [undefined].  The attribute object of a node is an [option]
      too: [index.ts] passes [null] for it.
    - A JavaScript number is an IEEE 754 double: a [spec_float] of the
      standard library at precision 53 and exponent limit 1024, with its
      [NaN], its infinities and its two zeros.  [===] on numbers is
      [SFeqb], [+] is [SFadd], and [num z] is the number nearest to the
      integer [z], which an integer literal denotes.
    - The browser's DOM is outside the repository.  A native node records
      what the calls of the source put into it: its tag, the (name, value)
      pairs given to [setAttribute], the (type, listener) pairs given to
      [addEventListener], the last value assigned to its [value] property,
      and its children.  The DOM stores a tag or attribute name as given
      when it is a name in lower case ([domName]); for other names it
      changes the case or refuses the call, which is outside this model,
      and the properties that depend on how a name is stored are stated
      for trees with such names ([plainNames]).  In the same way
      [setAttribute] is modelled for the values the source's cast
      announces, strings.  The DOM's refusals that the source can run
      into are modelled as exceptions: a member read or a call on
      [undefined], [removeChild] and [replaceChild] of a child that is
      [undefined], [appendChild] on a text node, [setAttribute] and
      [removeAttribute] on a text node, and [addEventListener] with a
      listener that is a string.
    - A procedure that mutates the DOM is an [Effect]: a function from the
      receiver to the receiver after the call, the list of native mutations
      performed, and the exception thrown, if any.
    - The host's event loop is a counter of queued [render] callbacks; a
      synchronous segment is a sequence of calls with no callback run in
      between. *)

From Stdlib Require Import ZArith Ascii String SpecFloat.
From stdpp Require Import base list strings pretty.

Open Scope string_scope.
Open Scope list_scope.
Set Warnings "-register-all".

(** ** 0. Numbers ([number])

    The values of type [number] are the doubles of IEEE 754; the standard
    library's [spec_float] gives them and their arithmetic, for any
    precision and exponent range.  The doubles are the [spec_float]s that
    are [valid_binary] at precision 53 and exponent limit 1024, and the
    operations below take doubles to doubles. *)

Definition Number := spec_float.
Definition prec64 : Z := 53.
Definition emax64 : Z := 1024.

(** The number an integer literal denotes: the one nearest to it. *)
Definition num (z : Z) : Number := binary_normalize prec64 emax64 z 0 false.
Coercion num : Z >-> Number.

(** [!x] for a number: [+0], [-0] and [NaN] are falsy. *)
Definition falsyNumber (x : Number) : bool :=
  match x with
  | S754_zero _ | S754_nan => true
  | _ => false
  end.

(** [x + y], and [x++] as [index.ts] applies it to [state.count]. *)
Definition plus (x y : Number) : Number := SFadd prec64 emax64 x y.

(** [Number.prototype.toString()], radix 10 (ECMAScript, Number::toString).
    For a positive finite [x = m * 2^e] it takes the decimal [s * 10^q]
    with the fewest digits [s] among those that denote [x], that is, that
    lie between the midpoints to the neighbours of [x] (a midpoint counts
    when [m] is even), and of these the one nearest to [x]. *)

(** The comparison of [s * 10^q] with [a * 2^p]. *)
Definition compareDecimalBinary (s q a p : Z) : comparison :=
  ((s * 10 ^ Z.max q 0 * 2 ^ Z.max (- p) 0)
   ?= (a * 2 ^ Z.max p 0 * 10 ^ Z.max (- q) 0))%Z.

(** [s * 10^q] denotes [m * 2^e]. *)
Definition denotes (m : positive) (e : Z) (s q : Z) : bool :=
  let low := if (Pos.eqb m (2 ^ 52) && (-1074 <? e)%Z)%bool
             then (4 * Z.pos m - 1)%Z else (4 * Z.pos m - 2)%Z in
  let high := (4 * Z.pos m + 2)%Z in
  let even := Z.even (Z.pos m) in
  match compareDecimalBinary s q low (e - 2) with
  | Gt => true
  | Eq => even
  | Lt => false
  end
  && match compareDecimalBinary s q high (e - 2) with
     | Lt => true
     | Eq => even
     | Gt => false
     end.

(** The least [n], from [n] on, with [m * 2^e < 10^n]. *)
Fixpoint decimalExponent (fuel : nat) (m : positive) (e n : Z) : Z :=
  match fuel with
  | O => n
  | S fuel' =>
      match compareDecimalBinary 1 n (Z.pos m) e with
      | Gt => n
      | _ => decimalExponent fuel' m e (n + 1)%Z
      end
  end.

(** The shortest decimal [(s, q)] that denotes [m * 2^e] where
    [m * 2^e < 10^n], looked for with [k] digits, then [k + 1], ...;
    17 digits always do. *)
Fixpoint shortestDecimal (fuel : nat) (m : positive) (e n k : Z) : Z * Z :=
  let q := (n - k)%Z in
  let below :=
    ((Z.pos m * 2 ^ Z.max e 0 * 10 ^ Z.max (- q) 0)
     / (2 ^ Z.max (- e) 0 * 10 ^ Z.max q 0))%Z in
  let above := (below + 1)%Z in
  match fuel with
  | O => (below, q)
  | S fuel' =>
      match denotes m e below q, denotes m e above q with
      | true, true =>
          match compareDecimalBinary (below + above) q (8 * Z.pos m) (e - 2) with
          | Lt => (above, q)
          | Gt => (below, q)
          | Eq => if Z.even below then (below, q) else (above, q)
          end
      | true, false => (below, q)
      | false, true => (above, q)
      | false, false => shortestDecimal fuel' m e n (k + 1)%Z
      end
  end.

Fixpoint dropZeros (fuel : nat) (s : Z) : Z :=
  match fuel with
  | O => s
  | S fuel' =>
      if ((s mod 10 =? 0) && (0 <? s))%Z%bool then dropZeros fuel' (s / 10)%Z
      else s
  end.

Fixpoint zeroDigits (n : nat) : string :=
  match n with
  | O => EmptyString
  | S k => String "0" (zeroDigits k)
  end.

Definition takeString (n : nat) (s : string) : string := String.substring 0 n s.
Definition dropString (n : nat) (s : string) : string :=
  String.substring n (String.length s - n) s.

(** The digits [digits] with the decimal point after the first [n] of
    them, written as Number::toString writes it. *)
Definition formatDecimal (digits : string) (n : Z) : string :=
  let k := Z.of_nat (String.length digits) in
  if ((k <=? n) && (n <=? 21))%Z%bool then
    digits +:+ zeroDigits (Z.to_nat (n - k))
  else if ((0 <? n) && (n <=? 21))%Z%bool then
    takeString (Z.to_nat n) digits +:+ "." +:+ dropString (Z.to_nat n) digits
  else if ((-6 <? n) && (n <=? 0))%Z%bool then
    "0." +:+ zeroDigits (Z.to_nat (- n)) +:+ digits
  else
    (if (k =? 1)%Z then digits
     else takeString 1 digits +:+ "." +:+ dropString 1 digits)
    +:+ "e" +:+ (if (0 <=? n - 1)%Z then "+" else "-")
    +:+ pretty (Z.abs (n - 1)).

Definition positiveToString (m : positive) (e : Z) : string :=
  let bits := (Z.log2 (Z.pos m) + e)%Z in
  let n := decimalExponent 8 m e (bits * 30103 / 100000 - 2)%Z in
  let (s, q) := shortestDecimal 17 m e n 1 in
  formatDecimal (pretty (dropZeros 400 s))
                (Z.of_nat (String.length (pretty s)) + q).

Definition numberToString (x : Number) : string :=
  match x with
  | S754_nan => "NaN"
  | S754_zero _ => "0"
  | S754_infinity false => "Infinity"
  | S754_infinity true => "-Infinity"
  | S754_finite false m e => positiveToString m e
  | S754_finite true m e => "-" +:+ positiveToString m e
  end.

(** ** 1. The virtual tree ([VNode], [NodeType], [Attributes]) *)

(** [string | Function]: a function value is known by its identity. *)
Inductive AttributeValue :=
| AString (s : string)
| AFunction (f : nat).

#[global] Instance AttributeValue_eq_dec : EqDecision AttributeValue.
Proof. solve_decision. Defined.

(** [{ [key: string]: string | Function }]: the own properties of the
    object in the order [for ... in] enumerates them. *)
Abbreviation Attributes := (list (string * AttributeValue)).

(** [type NodeType = VNode | string | number]. *)
Inductive NodeType :=
| VNode (nodeName : string) (attributes : option Attributes)
        (children : list NodeType)
| JString (s : string)
| JNumber (n : Number).
Arguments JNumber n%_Z.

(** [h(nodeName, attributes, ...children)]. *)
Definition h (nodeName : string) (attributes : option Attributes)
    (children : list NodeType) : NodeType :=
  VNode nodeName attributes children.

(** The results of [typeof] that occur. *)
Inductive JsType := TUndefined | TObject | TString | TNumber.

#[global] Instance JsType_eq_dec : EqDecision JsType.
Proof. solve_decision. Defined.

Definition typeof (node : option NodeType) : JsType :=
  match node with
  | None => TUndefined
  | Some (VNode _ _ _) => TObject
  | Some (JString _) => TString
  | Some (JNumber _) => TNumber
  end.

(** [typeof node !== "string" && typeof node !== "number"]. *)
Definition isVNode (node : option NodeType) : bool :=
  negb (bool_decide (typeof node = TString))
  && negb (bool_decide (typeof node = TNumber)).

(** [/^on/.test(attribute)]. *)
Definition isEventAttr (attribute : string) : bool :=
  String.prefix "on" attribute.

(** [attribute.slice(2)]. *)
Definition slice2 (attribute : string) : string :=
  match attribute with
  | String _ (String _ rest) => rest
  | _ => EmptyString
  end.

(** [!node]: [undefined], the numbers [0], [-0] and [NaN], and the empty
    string are falsy. *)
Definition falsy (node : option NodeType) : bool :=
  match node with
  | None => true
  | Some (JString s) => bool_decide (s = EmptyString)
  | Some (JNumber n) => falsyNumber n
  | Some (VNode _ _ _) => false
  end.

(** [node.toString()] of a leaf. *)
Definition toString (node : NodeType) : string :=
  match node with
  | JString s => s
  | JNumber n => numberToString n
  | VNode _ _ _ => "[object Object]"
  end.

(** [a === b] for two values of the same type that are not objects:
    strings are compared by their characters, numbers as IEEE 754 has it
    ([NaN] differs from itself, [0] equals [-0]).  Two objects are compared
    by identity, which the trees of this model do not have; the source
    compares leaves only. *)
Definition strictlyEqual (a b : option NodeType) : bool :=
  match a, b with
  | None, None => true
  | Some (JString s), Some (JString t) => bool_decide (s = t)
  | Some (JNumber x), Some (JNumber y) => SFeqb x y
  | _, _ => false
  end.

(** [attributes[key]]: [None] is [undefined]. *)
Fixpoint getProperty (key : string) (attributes : Attributes)
    : option AttributeValue :=
  match attributes with
  | [] => None
  | (k, v) :: rest => if String.eqb k key then Some v else getProperty key rest
  end.

(** [attributes?.value]. *)
Definition valueOf (attributes : option Attributes) : option AttributeValue :=
  match attributes with
  | None => None
  | Some a => getProperty "value" a
  end.

(** ** 2. [JSON.stringify] of an attribute object *)

Definition dquote : ascii := ascii_of_nat 34.
Definition backslash : ascii := ascii_of_nat 92.

Definition hexDigit (n : nat) : ascii :=
  if (n <? 10)%nat then ascii_of_nat (48 + n) else ascii_of_nat (87 + n).

(** One character of a JSON string literal. *)
Definition jsonEscape (c : ascii) : string :=
  let n := nat_of_ascii c in
  if (n =? 34)%nat then String backslash (String dquote EmptyString)
  else if (n =? 92)%nat then String backslash (String backslash EmptyString)
  else if (n =? 8)%nat then "\b"
  else if (n =? 9)%nat then "\t"
  else if (n =? 10)%nat then "\n"
  else if (n =? 12)%nat then "\f"
  else if (n =? 13)%nat then "\r"
  else if (n <? 32)%nat then
    "\u00" +:+ String (hexDigit (n / 16)) (String (hexDigit (n mod 16)) EmptyString)
  else String c EmptyString.

Fixpoint jsonEscapeAll (s : string) : string :=
  match s with
  | EmptyString => EmptyString
  | String c rest => jsonEscape c +:+ jsonEscapeAll rest
  end.

Definition jsonQuote (s : string) : string :=
  String dquote (jsonEscapeAll s) +:+ String dquote EmptyString.

(** The members of the serialised object: a property whose value is a
    function is left out. *)
Fixpoint jsonMembers (attributes : Attributes) : list string :=
  match attributes with
  | [] => []
  | (k, AString s) :: rest =>
      (jsonQuote k +:+ ":" +:+ jsonQuote s) :: jsonMembers rest
  | (_, AFunction _) :: rest => jsonMembers rest
  end.

Fixpoint joinComma (members : list string) : string :=
  match members with
  | [] => EmptyString
  | [m] => m
  | m :: rest => m +:+ "," +:+ joinComma rest
  end.

(** [JSON.stringify(attributes)]; [null] serialises to ["null"]. *)
Definition JSON_stringify (attributes : option Attributes) : string :=
  match attributes with
  | None => "null"
  | Some a => "{" +:+ joinComma (jsonMembers a) +:+ "}"
  end.

(** ** 3. Difference detection *)

(** [enum ChangedType { None, Type, Text, Node, Value, Attr }]. *)
Inductive ChangedType :=
| CT_None | CT_Type | CT_Text | CT_Node | CT_Value | CT_Attr.

#[global] Instance ChangedType_eq_dec : EqDecision ChangedType.
Proof. solve_decision. Defined.

Inductive Exn := TypeError | HierarchyRequestError.

#[global] Instance Exn_eq_dec : EqDecision Exn.
Proof. solve_decision. Defined.

(** How a call ends: it returns a value or throws. *)
Inductive Completion (A : Type) :=
| Return (a : A)
| Throw (e : Exn).
Arguments Return {A} a.
Arguments Throw {A} e.

(** [detectVirtualDOMDifference(oldNode, newNode)].  The declared
    parameter type is [NodeType]; at run time either argument can be
    [undefined], and reading [nodeName] of [undefined] throws. *)
Definition detectVirtualDOMDifference (oldNode newNode : option NodeType)
    : Completion ChangedType :=
  if negb (bool_decide (typeof oldNode = typeof newNode)) then
    Return CT_Type
  else if negb (isVNode oldNode)
          && negb (strictlyEqual oldNode newNode) then
    Return CT_Text
  else if isVNode oldNode && isVNode newNode then
    match oldNode, newNode with
    | Some (VNode oldName oldAttributes _), Some (VNode newName newAttributes _) =>
        if negb (bool_decide (oldName = newName)) then Return CT_Node
        else if negb (bool_decide (valueOf oldAttributes = valueOf newAttributes))
        then Return CT_Value
        else if negb (bool_decide
                        (JSON_stringify oldAttributes = JSON_stringify newAttributes))
        then Return CT_Attr
        else Return CT_None
    | _, _ => Throw TypeError
    end
  else Return CT_None.

(** ** 4. The native tree *)

(** A JavaScript value that can reach the [value] property:
    [undefined], a string or a function. *)
Definition JSValue := option AttributeValue.

(** A native node.  [value] is [None] until the property is assigned. *)
Inductive DOMNode :=
| Text (data : string) (value : option JSValue)
| Element (tagName : string)
          (attrs : list (string * AttributeValue))
          (listeners : list (string * AttributeValue))
          (value : option JSValue)
          (childNodes : list DOMNode).

(** [document.createTextNode(data)] and [document.createElement(tag)]. *)
Definition createTextNode (data : string) : DOMNode := Text data None.
Definition document_createElement (tag : string) : DOMNode :=
  Element tag [] [] None [].

(** [node.childNodes]; a text node has none. *)
Definition childNodesOf (node : DOMNode) : list DOMNode :=
  match node with
  | Text _ _ => []
  | Element _ _ _ _ cs => cs
  end.

Definition withChildNodes (node : DOMNode) (cs : list DOMNode) : DOMNode :=
  match node with
  | Text d v => Text d v
  | Element t a l v _ => Element t a l v cs
  end.

(** The attribute list after [setAttribute(name, v)]: an attribute of
    that name keeps its place and takes the value, a new one goes last. *)
Fixpoint putAttribute (name : string) (v : AttributeValue)
    (attrs : list (string * AttributeValue)) : list (string * AttributeValue) :=
  match attrs with
  | [] => [(name, v)]
  | (k, w) :: rest =>
      if String.eqb k name then (k, v) :: rest
      else (k, w) :: putAttribute name v rest
  end.

(** The attribute list after [removeAttribute(name)]. *)
Fixpoint dropAttribute (name : string)
    (attrs : list (string * AttributeValue)) : list (string * AttributeValue) :=
  match attrs with
  | [] => []
  | (k, w) :: rest =>
      if String.eqb k name then dropAttribute name rest
      else (k, w) :: dropAttribute name rest
  end.

(** A name the DOM stores as given, as a tag and as an attribute: it
    starts with a lower-case letter or an underscore and goes on with
    lower-case letters, digits, hyphens, underscores and dots.  Such a name
    is valid for [document.createElement] and for [setAttribute], and
    putting it in lower case, as both do in an HTML document, leaves it as
    it is.  For these names, and for a value that is a string,
    [setAttribute] and [removeAttribute] below are the DOM's: another name
    the DOM puts in lower case or refuses with an [InvalidCharacterError],
    and a function given as the value it stores as the function's source
    text, neither of which is modelled here. *)
Definition nameStart (c : ascii) : bool :=
  let n := nat_of_ascii c in
  ((97 <=? n) && (n <=? 122) || (n =? 95))%nat.

Definition nameChar (c : ascii) : bool :=
  let n := nat_of_ascii c in
  (nameStart c || (48 <=? n) && (n <=? 57) || (n =? 45) || (n =? 46))%nat.

Fixpoint allChars (p : ascii -> bool) (s : string) : bool :=
  match s with
  | EmptyString => true
  | String c rest => p c && allChars p rest
  end.

Definition domName (name : string) : bool :=
  match name with
  | EmptyString => false
  | String c rest => nameStart c && allChars nameChar rest
  end.

(** The calls below act on an element; on a text node [setAttribute] and
    [removeAttribute] do not exist and [appendChild] is refused, which the
    effects of section 5 turn into exceptions. *)
Definition setAttribute (name : string) (v : AttributeValue)
    (target : DOMNode) : DOMNode :=
  match target with
  | Text d x => Text d x
  | Element t a l x cs => Element t (putAttribute name v a) l x cs
  end.

Definition removeAttribute (name : string) (target : DOMNode) : DOMNode :=
  match target with
  | Text d x => Text d x
  | Element t a l x cs => Element t (dropAttribute name a) l x cs
  end.

(** [target.addEventListener(type, listener)]: the listener has to be an
    object, a string is refused with a [TypeError]; a listener already
    registered for the type is not registered twice. *)
Definition addEventListener (type : string) (listener : AttributeValue)
    (target : DOMNode) : Completion DOMNode :=
  match listener with
  | AString _ => Throw TypeError
  | AFunction _ =>
      Return
        match target with
        | Text d x => Text d x
        | Element t a l x cs =>
            if bool_decide ((type, listener) ∈ l) then Element t a l x cs
            else Element t a (l ++ [(type, listener)]) x cs
        end
  end.

Definition appendChild (child : DOMNode) (parent : DOMNode) : DOMNode :=
  withChildNodes parent (childNodesOf parent ++ [child]).

(** [target.value = v]. *)
Definition setValue (v : JSValue) (target : DOMNode) : DOMNode :=
  match target with
  | Text d _ => Text d (Some v)
  | Element t a l _ cs => Element t a l (Some v) cs
  end.

(** [setAttributes(target, attributes)]: one call per property, in
    enumeration order; [for ... in null] has no iteration. *)
Fixpoint setAttributesLoop (attributes : Attributes) (target : DOMNode)
    : Completion DOMNode :=
  match attributes with
  | [] => Return target
  | (attribute, v) :: rest =>
      if isEventAttr attribute then
        match addEventListener (slice2 attribute) v target with
        | Return target' => setAttributesLoop rest target'
        | Throw e => Throw e
        end
      else setAttributesLoop rest (setAttribute attribute v target)
  end.

Definition setAttributes (target : DOMNode) (attributes : option Attributes)
    : Completion DOMNode :=
  match attributes with
  | None => Return target
  | Some a => setAttributesLoop a target
  end.

(** [createElement(node)]; the inner loop is
    [node.children.forEach((child) => element.appendChild(createElement(child)))]. *)
Fixpoint createElement (node : NodeType) : Completion DOMNode :=
  match node with
  | VNode nodeName attributes children =>
      match setAttributes (document_createElement nodeName) attributes with
      | Throw e => Throw e
      | Return element =>
          (fix forEach (cs : list NodeType) (element : DOMNode)
             : Completion DOMNode :=
             match cs with
             | [] => Return element
             | child :: rest =>
                 match createElement child with
                 | Throw e => Throw e
                 | Return c => forEach rest (appendChild c element)
                 end
             end) children element
      end
  | leaf => Return (createTextNode (toString leaf))
  end.

(** The loop of [createElement] over the children. *)
Definition appendChildren : list NodeType -> DOMNode -> Completion DOMNode :=
  fix forEach (cs : list NodeType) (element : DOMNode) : Completion DOMNode :=
    match cs with
    | [] => Return element
    | child :: rest =>
        match createElement child with
        | Throw e => Throw e
        | Return c => forEach rest (appendChild c element)
        end
    end.

(** ** 5. Effects on the native tree *)

(** A native mutation, as seen from the receiver of the procedure that
    performs it.  [OnChild i c] is the call [c] made on the node that is
    child [i] of the receiver; [OnDetached i c] is the call [c] made on the
    node that was child [i] of the receiver until a [replaceChild] took it
    out of the tree. *)
Inductive NativeCall :=
| AppendChild (child : DOMNode)
| RemoveChild (index : nat)
| ReplaceChild (newChild : DOMNode) (index : nat)
| SetValue (v : JSValue)
| RemoveAttribute (name : string)
| SetAttribute (name : string) (v : AttributeValue)
| OnChild (index : nat) (c : NativeCall)
| OnDetached (index : nat) (c : NativeCall).

(** A reference to a native node; [None] is [undefined]. *)
Definition Ref := option DOMNode.

Record Outcome := mkOutcome {
  node : Ref;                  (* the receiver after the procedure *)
  calls : list NativeCall;     (* the native mutations performed, in order *)
  thrown : option Exn          (* the exception that ended it, if any *)
}.

Definition Effect := Ref -> Outcome.

Definition skip : Effect := fun r => mkOutcome r [] None.
Definition throw (e : Exn) : Effect := fun r => mkOutcome r [] (Some e).

(** [m1; m2]: [m2] does not run when [m1] throws. *)
Definition andThen (m1 m2 : Effect) : Effect := fun r =>
  let o1 := m1 r in
  match thrown o1 with
  | Some _ => o1
  | None =>
      let o2 := m2 (node o1) in
      mkOutcome (node o2) (calls o1 ++ calls o2) (thrown o2)
  end.
Declare Scope effect_scope.
Delimit Scope effect_scope with E.
Bind Scope effect_scope with Effect.
Notation "m1 ;; m2" := (andThen m1 m2)
  (at level 100, m2 at level 200, right associativity) : effect_scope.
Open Scope effect_scope.

(** Use the value of a pure computation that may throw. *)
Definition withResult {A : Type} (c : Completion A) (k : A -> Effect) : Effect :=
  match c with
  | Return a => k a
  | Throw e => throw e
  end.

(** [parent.childNodes[index]], read from the receiver. *)
Definition childAt (index : nat) (parent : Ref) : Ref :=
  match parent with
  | None => None
  | Some p => childNodesOf p !! index
  end.

(** Reading a property of the receiver throws when it is [undefined]. *)
Definition requireReceiver : Effect := fun r =>
  match r with
  | None => throw TypeError r
  | Some _ => skip r
  end.

(** [parent.appendChild(child)]. *)
Definition appendChildE (child : DOMNode) : Effect := fun parent =>
  match parent with
  | None => throw TypeError parent
  | Some (Text _ _) => throw HierarchyRequestError parent
  | Some p => mkOutcome (Some (appendChild child p)) [AppendChild child] None
  end.

(** [parent.removeChild(target)] with [target = parent.childNodes[index]]:
    refused when [target] is [undefined]. *)
Definition removeChildE (index : nat) : Effect := fun parent =>
  match parent, childAt index parent with
  | Some p, Some _ =>
      mkOutcome (Some (withChildNodes p (delete index (childNodesOf p))))
                [RemoveChild index] None
  | _, _ => throw TypeError parent
  end.

(** [parent.replaceChild(newChild, target)], same [target]. *)
Definition replaceChildE (newChild : DOMNode) (index : nat) : Effect :=
  fun parent =>
  match parent, childAt index parent with
  | Some p, Some _ =>
      mkOutcome (Some (withChildNodes p (<[index := newChild]> (childNodesOf p))))
                [ReplaceChild newChild index] None
  | _, _ => throw TypeError parent
  end.

(** [target.removeAttribute(name)] and [target.setAttribute(name, v)]. *)
Definition removeAttributeE (name : string) : Effect := fun target =>
  match target with
  | Some (Element _ _ _ _ _ as e) =>
      mkOutcome (Some (removeAttribute name e)) [RemoveAttribute name] None
  | _ => throw TypeError target
  end.

Definition setAttributeE (name : string) (v : AttributeValue) : Effect :=
  fun target =>
  match target with
  | Some (Element _ _ _ _ _ as e) =>
      mkOutcome (Some (setAttribute name v e)) [SetAttribute name v] None
  | _ => throw TypeError target
  end.

(** [updateValue(target, newValue)]: [target.value = newValue]. *)
Definition updateValue (newValue : JSValue) : Effect := fun target =>
  match target with
  | None => throw TypeError target
  | Some t => mkOutcome (Some (setValue newValue t)) [SetValue newValue] None
  end.

(** Run [m] with the receiver's child [index] as its receiver. *)
Definition onChild (index : nat) (m : Effect) : Effect := fun parent =>
  let target := childAt index parent in
  let o := m target in
  let parent' :=
    match parent, target, node o with
    | Some p, Some _, Some t' =>
        Some (withChildNodes p (<[index := t']> (childNodesOf p)))
    | _, _, _ => parent
    end in
  mkOutcome parent' (map (OnChild index) (calls o)) (thrown o).

(** Run [m] on [target], a node no longer in the receiver's tree. *)
Definition onDetached (index : nat) (target : Ref) (m : Effect) : Effect :=
  fun parent =>
  let o := m target in
  mkOutcome parent (map (OnDetached index) (calls o)) (thrown o).

(** ** 6. Reconciliation *)

(** The two loops of [updateAttributes]. *)
Fixpoint removeLoop (oldAttributes : Attributes) : Effect :=
  match oldAttributes with
  | [] => skip
  | (attribute, _) :: rest =>
      (if negb (isEventAttr attribute) then removeAttributeE attribute else skip) ;;
      removeLoop rest
  end.

Fixpoint setLoop (newAttributes : Attributes) : Effect :=
  match newAttributes with
  | [] => skip
  | (attribute, v) :: rest =>
      (if negb (isEventAttr attribute) then setAttributeE attribute v else skip) ;;
      setLoop rest
  end.

(** [for (let attribute in attributes)]: nothing to enumerate in [null]. *)
Definition properties (attributes : option Attributes) : Attributes :=
  match attributes with
  | None => []
  | Some a => a
  end.

(** [updateAttributes(target, oldAttributes, newAttributes)]. *)
Definition updateAttributes (oldAttributes newAttributes : option Attributes)
    : Effect :=
  removeLoop (properties oldAttributes) ;; setLoop (properties newAttributes).

(** [(node as VNode).attributes]: a string or a number has no such property. *)
Definition attributesOf (node : option NodeType) : option Attributes :=
  match node with
  | Some (VNode _ a _) => a
  | _ => None
  end.

Definition childrenOf (node : option NodeType) : list NodeType :=
  match node with
  | Some (VNode _ _ cs) => cs
  | _ => []
  end.

(** [createElement(newNode)] from a reference: [createElement(undefined)]
    reads [nodeName] of [undefined]. *)
Definition createElementOf (newNode : option NodeType) : Completion DOMNode :=
  match newNode with
  | None => Throw TypeError
  | Some n => createElement n
  end.

(** The branch of [updateElement] taken when [oldNode] is [undefined]. *)
Definition appendNew (newNode : option NodeType) : Effect :=
  withResult (createElementOf newNode) appendChildE.

(** The iterations of the child loop that are past the end of
    [oldNode.children]. *)
Fixpoint appendRest (news : list NodeType) : Effect :=
  match news with
  | [] => skip
  | n :: rest => appendNew (Some n) ;; appendRest rest
  end.

(** The body of [updateElement(parent, oldNode, newNode, index)] for an
    [oldNode] that is not [undefined]; the receiver is [parent], and
    [loop] stands for the loop over the children, which runs with
    [target] as its receiver.  The cases [Value] and [Attr] of the [switch]
    end with [return], so the loop that follows the [switch] is reached
    from the case [None] only. *)
Definition updateWith (loop : Effect) (oldNode : NodeType)
    (newNode : option NodeType) (index : nat) : Effect :=
  requireReceiver ;;
  fun parent =>
  let target := childAt index parent in
  (if falsy newNode then removeChildE index
   else
     withResult (detectVirtualDOMDifference (Some oldNode) newNode)
       (fun changeType =>
        match changeType with
        | CT_Type | CT_Text | CT_Node =>
            withResult (createElementOf newNode)
              (fun fresh => replaceChildE fresh index) ;;
            (* no return here: control falls into the next case *)
            onDetached index target (updateValue (valueOf (attributesOf newNode)))
        | CT_Value =>
            onChild index (updateValue (valueOf (attributesOf newNode)))
        | CT_Attr =>
            onChild index
              (updateAttributes (attributesOf (Some oldNode)) (attributesOf newNode))
        | CT_None =>
            if isVNode (Some oldNode) && isVNode newNode
            then onChild index loop
            else skip
        end)) parent.

(** [updateElement] for a defined [oldNode].  The recursion is on
    [oldNode]: position [i] of the loop is [updateElement(target, o, n, i)]
    while [oldNode.children] lasts, and an append afterwards. *)
Fixpoint updateDefined (oldNode : NodeType) (newNode : option NodeType)
    (index : nat) {struct oldNode} : Effect :=
  updateWith
    match oldNode with
    | VNode _ _ oldChildren =>
        (fix loop (olds news : list NodeType) (i : nat) : Effect :=
           match olds with
           | [] => appendRest news
           | o :: olds' =>
               updateDefined o (head news) i ;; loop olds' (tail news) (S i)
           end) oldChildren (childrenOf newNode) 0
    | _ => skip
    end
    oldNode newNode index.

(** The loop [updateDefined] runs over [oldNode.children]. *)
Definition structuralLoop : list NodeType -> list NodeType -> nat -> Effect :=
  fix loop (olds news : list NodeType) (i : nat) : Effect :=
    match olds with
    | [] => appendRest news
    | o :: olds' =>
        updateDefined o (head news) i ;; loop olds' (tail news) (S i)
    end.

(** [updateElement(parent, oldNode, newNode, index)]. *)
Definition updateElement (oldNode newNode : option NodeType) (index : nat)
    : Effect :=
  match oldNode with
  | None => appendNew newNode
  | Some o => updateDefined o newNode index
  end.

(** ** 7. The application shell ([class App]) *)

Section App.
(** The user's state type and view.  The view's second argument, the
    wrapped actions, only ends up inside the event handlers of the tree;
    the tree is a function of the state. *)
Context {State : Type}.
Variable view : State -> NodeType.

(** [ActionType<State>]: what the action does to the state it is given;
    its return value goes back to the caller and plays no part here. *)
Definition ActionType := State -> State.

(** The fields of an [App]; [state] is the content of the state object,
    [element] the mount point ([querySelector] may have found none). *)
Record App := mkApp {
  element : Ref;
  state : State;
  oldNode : option NodeType;
  newNode : option NodeType;
  skipRender : bool
}.

(** The application together with the host's timer queue: [timers] is
    the number of [render] callbacks that [setTimeout] has queued and
    that have not run yet. *)
Record Host := mkHost {
  app : App;
  timers : nat
}.

(** [scheduleRender()]. *)
Definition scheduleRender (h : Host) : Host :=
  let a := app h in
  if negb (skipRender a) then
    mkHost (mkApp (element a) (state a) (oldNode a) (newNode a) true)
           (S (timers h))
  else h.

(** [resolveNode()]. *)
Definition resolveNode (h : Host) : Host :=
  let a := app h in
  scheduleRender
    (mkHost (mkApp (element a) (state a) (oldNode a)
                   (Some (view (state a))) (skipRender a))
            (timers h)).

(** A call of the function that [dispatchAction] stores for [action],
    made with the state object of the application, as the handlers of
    [index.ts] make it: the action runs on the state, then
    [resolveNode()]. *)
Definition dispatched (action : ActionType) (h : Host) : Host :=
  let a := app h in
  resolveNode
    (mkHost (mkApp (element a) (action (state a)) (oldNode a) (newNode a)
                   (skipRender a))
            (timers h)).

(** [new App({ element, view, state, actions })]: the fields start
    [undefined], then [resolveNode()]. *)
Definition construct (mount : Ref) (initial : State) : Host :=
  resolveNode (mkHost (mkApp mount initial None None false) 0).

(** What one run of [render()] did: the trees it was given, the native
    mutations, and the exception that ended it, if any. *)
Record Pass := mkPass {
  passOld : option NodeType;
  passNew : option NodeType;
  passCalls : list NativeCall;
  passThrown : option Exn
}.

(** [render()].  When the update throws, the two assignments at the end
    are not reached. *)
Definition render (a : App) : App * Pass :=
  let o :=
    if negb (falsy (oldNode a))
    then updateElement (oldNode a) (newNode a) 0 (element a)
    else appendNew (newNode a) (element a) in
  let pass := mkPass (oldNode a) (newNode a) (calls o) (thrown o) in
  match thrown o with
  | Some _ =>
      (mkApp (node o) (state a) (oldNode a) (newNode a) (skipRender a), pass)
  | None =>
      (mkApp (node o) (state a) (newNode a) (newNode a) false, pass)
  end.

(** The host runs one queued callback. *)
Definition runTimer (h : Host) : Host * list Pass :=
  match timers h with
  | O => (h, [])
  | S n => let (a, pass) := render (app h) in (mkHost a n, [pass])
  end.

(** The host runs the callbacks queued so far, one after the other. *)
Fixpoint runTimers (n : nat) (h : Host) : Host * list Pass :=
  match n with
  | O => (h, [])
  | S k =>
      let (h1, p1) := runTimer h in
      let (h2, p2) := runTimers k h1 in
      (h2, p1 ++ p2)
  end.

Definition flush (h : Host) : Host * list Pass := runTimers (timers h) h.

(** A synchronous segment: the wrapped actions called one after the
    other, no callback in between. *)
Definition segment (actions : list ActionType) (h : Host) : Host :=
  fold_left (fun h action => dispatched action h) actions h.

(** The pending flag says whether a [render] callback is queued. *)
Definition consistent (h : Host) : Prop :=
  timers h = if skipRender (app h) then 1 else 0.

(** One step of the system: a wrapped action is called, or the host
    runs a queued callback. *)
Inductive step : Host -> Host -> Prop :=
| step_dispatch action h : step h (dispatched action h)
| step_timer h : 0 < timers h -> step h (fst (runTimer h)).

(** The states the application reaches from its construction as long as
    no [render] is ended by an exception. *)
Inductive reachable (mount : Ref) (initial : State) : Host -> Prop :=
| reach_construct : reachable mount initial (construct mount initial)
| reach_dispatch action h :
    reachable mount initial h -> reachable mount initial (dispatched action h)
| reach_timer h :
    reachable mount initial h -> 0 < timers h ->
    passThrown (snd (render (app h))) = None ->
    reachable mount initial (fst (runTimer h)).
End App.

(** ** 8. Notions the properties are stated with *)

(** The child loop of [updateElement] as the source writes it:
    [for (i = 0; i < news.length || i < olds.length; i++)
       updateElement(target, olds[i], news[i], i)],
    run for [n] iterations from index [i]. *)
Fixpoint childLoop (n i : nat) (olds news : list NodeType) : Effect :=
  match n with
  | O => skip
  | S k =>
      updateElement (olds !! i) (news !! i) i ;;
      childLoop k (S i) olds news
  end.

Definition updateChildren (olds news : list NodeType) : Effect :=
  childLoop (max (length news) (length olds)) 0 olds news.

(** What can be read from a native tree: the tag, the attributes and the
    children of an element, the text of a text node. *)
Fixpoint readBack (n : DOMNode) : NodeType :=
  match n with
  | Text data _ => JString data
  | Element tag attrs _ _ cs => VNode tag (Some attrs) (map readBack cs)
  end.

Definition listenersOf (n : DOMNode) : list (string * AttributeValue) :=
  match n with
  | Text _ _ => []
  | Element _ _ l _ _ => l
  end.

(** The properties of an attribute object that are not events, and those
    that are. *)
Definition plainAttributes (attributes : option Attributes) : Attributes :=
  filter (fun kv => isEventAttr (fst kv) = false) (properties attributes).

Definition eventAttributes (attributes : option Attributes) : Attributes :=
  filter (fun kv => isEventAttr (fst kv) = true) (properties attributes).

(** The listener [setAttributes] registers for an event property. *)
Definition asListener (kv : string * AttributeValue) : string * AttributeValue :=
  (slice2 (fst kv), snd kv).

(** The structure [createElement] gives the native tree: event properties
    are not attributes, and a leaf is its text. *)
Fixpoint nativeStructure (n : NodeType) : NodeType :=
  match n with
  | VNode tag attributes children =>
      VNode tag (Some (plainAttributes attributes)) (map nativeStructure children)
  | leaf => JString (toString leaf)
  end.

(** The casts of [setAttributes] hold for a property: an event property
    holds a function, any other property a string. *)
Definition wellKinded (kv : string * AttributeValue) : bool :=
  match snd kv with
  | AFunction _ => isEventAttr (fst kv)
  | AString _ => negb (isEventAttr (fst kv))
  end.

(** A tree whose attribute objects have each key once, as JavaScript
    objects do, and whose properties are of the kind their name says. *)
Fixpoint wellFormed (n : NodeType) : bool :=
  match n with
  | VNode _ attributes children =>
      bool_decide (NoDup (map fst (properties attributes)))
      && forallb wellKinded (properties attributes)
      && forallb wellFormed children
  | _ => true
  end.

(** The native tree [createElement] is to build: attributes and
    listeners as [setAttributes] sorts the properties, no [value]
    assigned, and a text node for a leaf. *)
Fixpoint nativeTree (n : NodeType) : DOMNode :=
  match n with
  | VNode tag attributes children =>
      Element tag (plainAttributes attributes)
        (map asListener (eventAttributes attributes)) None
        (map nativeTree children)
  | leaf => createTextNode (toString leaf)
  end.

(** The tags of the tree and the names of its properties that are not
    events are names the DOM stores as given. *)
Fixpoint plainNames (n : NodeType) : bool :=
  match n with
  | VNode tag attributes children =>
      domName tag
      && forallb (fun kv => domName (fst kv)) (plainAttributes attributes)
      && forallb plainNames children
  | _ => true
  end.

(** No node of the tree is falsy: none is the number [0], [-0] or [NaN],
    or the empty string. *)
Fixpoint truthyTree (n : NodeType) : bool :=
  negb (falsy (Some n))
  && match n with
     | VNode _ _ children => forallb truthyTree children
     | _ => true
     end.

(** Two attribute objects with the same key/value pairs, in any order. *)
Definition sameAttributes (a b : option Attributes) : Prop :=
  match a, b with
  | None, None => True
  | Some x, Some y => x ≡ₚ y
  | _, _ => False
  end.

(** Two trees equal by value, attribute objects compared as mappings. *)
Inductive sameTree : NodeType -> NodeType -> Prop :=
| same_string s : sameTree (JString s) (JString s)
| same_number n : sameTree (JNumber n) (JNumber n)
| same_vnode tag a b cs ds :
    sameAttributes a b -> Forall2 sameTree cs ds ->
    sameTree (VNode tag a cs) (VNode tag b ds).

(** An outcome without native mutation, the receiver [r] left as it was. *)
Definition quiet (o : Outcome) (r : Ref) : Prop :=
  calls o = [] /\ node o = r.

(** The update the specification describes for changed attributes: the
    attribute update on the native node, then the child loop on it. *)
Definition attributesThenChildren (oldNode newNode : option NodeType)
    (index : nat) : Effect :=
  onChild index
    (updateAttributes (attributesOf oldNode) (attributesOf newNode) ;;
     updateChildren (childrenOf oldNode) (childrenOf newNode)).

(** The attribute list of an element after [removeAttribute] for each of
    [names], and after [setAttribute] for each of [news]. *)
Definition dropAll (names : Attributes) (attrs : list (string * AttributeValue))
    : list (string * AttributeValue) :=
  fold_left (fun acc kv => dropAttribute (fst kv) acc) names attrs.

Definition putAll (news : Attributes) (attrs : list (string * AttributeValue))
    : list (string * AttributeValue) :=
  fold_left (fun acc kv => putAttribute (fst kv) (snd kv) acc) news attrs.

(** The native calls of [updateAttributes] on an element. *)
Definition removals (oldAttributes : option Attributes) : list NativeCall :=
  map (fun kv => RemoveAttribute (fst kv)) (plainAttributes oldAttributes).

Definition settings (newAttributes : option Attributes) : list NativeCall :=
  map (fun kv => SetAttribute (fst kv) (snd kv)) (plainAttributes newAttributes).

(** The attribute a call names, if it is [setAttribute] or
    [removeAttribute]. *)
Definition attributeNamed (c : NativeCall) : option string :=
  match c with
  | RemoveAttribute name => Some name
  | SetAttribute name _ => Some name
  | _ => None
  end.

(** ** 9. Sample trees *)

Definition mountPoint (children : list DOMNode) : DOMNode :=
  Element "div" [("id", AString "app")] [] None children.

(** A text input showing [v], and its native node. *)
Definition inputWith (v : string) : NodeType :=
  h "input" (Some [("type", AString "text"); ("value", AString v)]) [].
Definition nativeInput (v : string) : DOMNode :=
  Element "input" [("type", AString "text"); ("value", AString v)] [] None [].

(** A [div] of class [c] holding the text [t], and its native node. *)
Definition boxWith (c t : string) : NodeType :=
  h "div" (Some [("class", AString c)]) [JString t].
Definition nativeBox (c t : string) : DOMNode :=
  Element "div" [("class", AString c)] [] None [Text t None].

(** An element without attributes or children, and its native node. *)
Definition bare (tag : string) : NodeType := h tag (Some []) [].
Definition nativeBare (tag : string) : DOMNode := Element tag [] [] None [].

(** A native paragraph holding the text [t]. *)
Definition nativeParagraph (t : string) : DOMNode :=
  Element "p" [] [] None [Text t None].

(** One mapping written in two key orders. *)
Definition pairAB : NodeType :=
  h "div" (Some [("a", AString "1"); ("b", AString "2")]) [].
Definition pairBA : NodeType :=
  h "div" (Some [("b", AString "2"); ("a", AString "1")]) [].
Definition nativePairAB : DOMNode :=
  Element "div" [("a", AString "1"); ("b", AString "2")] [] None [].

(** The view of [index.ts] for a state whose count is [count]; the click
    handler is the function [1]. *)
Definition countUpButton : NodeType :=
  h "button" (Some [("type", AString "button"); ("onclick", AFunction 1)])
    [JString "count up"].

Definition counterView (count : Number) : NodeType :=
  h "div" None [h "p" None [JNumber count]; countUpButton].
Arguments counterView count%_Z.

(** The native button, and the native tree of the counter when the
    paragraph shows [t]. *)
Definition nativeCountUpButton : DOMNode :=
  Element "button" [("type", AString "button")] [("click", AFunction 1)] None
    [Text "count up" None].

Definition nativeCounter (t : string) : DOMNode :=
  Element "div" [] [] None [nativeParagraph t; nativeCountUpButton].

(** [increment] of [index.ts]: [state.count++]. *)
Definition increment (count : Number) : Number := plus count 1%Z.

(** A view listing [n] items. *)
Definition listView (n : nat) : NodeType :=
  h "ul" None (repeat (h "li" None []) n).

(** ** Further notions, for the properties of sections 21 and later *)

(** Every property of the tree under an event name holds a function:
    what [addEventListener] accepts. *)
Definition listenerIsFunction (kv : string * AttributeValue) : bool :=
  negb (isEventAttr (fst kv))
  || match snd kv with
     | AFunction _ => true
     | AString _ => false
     end.

Fixpoint mountable (n : NodeType) : bool :=
  match n with
  | VNode _ attributes children =>
      forallb listenerIsFunction (properties attributes)
      && forallb mountable children
  | _ => true
  end.

(** The outcome of a procedure on [parent] that leaves [parent] what it
    was but for its children, keeps their number, and keeps every child
    other than the one at [index]. *)
Definition framed (index : nat) (parent : DOMNode) (o : Outcome) : Prop :=
  exists cs',
    node o = Some (withChildNodes parent cs')
    /\ length cs' = length (childNodesOf parent)
    /\ forall j, j <> index -> cs' !! j = childNodesOf parent !! j.

(** The same tree with other functions under its event names: every
    handler [f] becomes the handler [g f], as when a view builds its
    closures anew. *)
Definition renameHandler (g : nat -> nat) (kv : string * AttributeValue)
    : string * AttributeValue :=
  if isEventAttr (fst kv) then
    match snd kv with
    | AFunction f => (fst kv, AFunction (g f))
    | AString _ => kv
    end
  else kv.

Fixpoint rehandle (g : nat -> nat) (n : NodeType) : NodeType :=
  match n with
  | VNode tag attributes children =>
      VNode tag (option_map (map (renameHandler g)) attributes)
            (map (rehandle g) children)
  | leaf => leaf
  end.

(** The native node [d] shows what a node built by [createElement] from
    [T] shows: the same tags, attributes, texts and children.  Listeners
    and [value] properties are not compared. *)
Definition inSync (d : DOMNode) (T : NodeType) : Prop :=
  exists b, createElement T = Return b /\ readBack d = readBack b.

(** A change from [oldNode] to [newNode] that stays within what the
    reconciler handles position by position: no new node is falsy; a
    position is either replaced ([Type], [Text], [Node]) or kept ([None])
    with the same non-event attributes, and under a kept position the new
    children are the old ones changed in the same way, possibly followed
    by further children, or the old ones without the last. *)
Fixpoint clean (oldNode newNode : NodeType) {struct oldNode} : bool :=
  negb (falsy (Some newNode))
  && match detectVirtualDOMDifference (Some oldNode) (Some newNode) with
     | Return CT_Type | Return CT_Text | Return CT_Node => true
     | Return CT_None =>
         match oldNode with
         | VNode _ oldAttributes olds =>
             bool_decide (plainAttributes oldAttributes
                          = plainAttributes (attributesOf (Some newNode)))
             && (fix children (olds news : list NodeType) : bool :=
                   match olds with
                   | [] => true
                   | o :: olds' =>
                       match news with
                       | n :: news' => clean o n && children olds' news'
                       | [] => bool_decide (olds' = [])
                       end
                   end) olds (childrenOf (Some newNode))
         | _ => true
         end
     | _ => false
     end.

(** The condition of [clean] on the children. *)
Definition cleanChildren : list NodeType -> list NodeType -> bool :=
  fix children (olds news : list NodeType) : bool :=
    match olds with
    | [] => true
    | o :: olds' =>
        match news with
        | n :: news' => clean o n && children olds' news'
        | [] => bool_decide (olds' = [])
        end
    end.

(** [bs] are the nodes [createElement] builds for [cs], one for one. *)
Definition created (cs : list NodeType) (bs : list DOMNode) : Prop :=
  Forall2 (fun c b => createElement c = Return b) cs bs.

(** The outcome of an update of position [index] of [parent] that
    completes and leaves there a node showing what [fresh] shows. *)
Definition synced (index : nat) (parent fresh : DOMNode) (o : Outcome) : Prop :=
  exists d,
    node o = Some (withChildNodes parent (<[index := d]> (childNodesOf parent)))
    /\ thrown o = None
    /\ readBack d = readBack fresh.

(** The view of [index.ts] with the closure it builds for [onclick] left
    open: [handler] is the function built by this call of the view. *)
Definition counterViewWith (handler : nat) (count : Number) : NodeType :=
  h "div" None
    [h "p" None [JNumber count];
     h "button" (Some [("type", AString "button"); ("onclick", AFunction handler)])
       [JString "count up"]].
Arguments counterViewWith handler count%_Z.

Section Turns.
Context {State : Type}.
Variable view : State -> NodeType.

(** The application is idle and the first child of its mount point shows
    the view of its state. *)
Definition mounted (h : Host) : Prop :=
  skipRender (app h) = false
  /\ timers h = 0
  /\ oldNode (app h) = Some (view (state (app h)))
  /\ exists mount d,
       element (app h) = Some mount
       /\ childNodesOf mount !! 0 = Some d
       /\ inSync d (view (state (app h))).

(** One turn of the event loop: a synchronous segment of wrapped actions,
    then the callbacks it queued. *)
Definition turn (actions : list ActionType) (h : Host) : Host :=
  fst (flush (segment view actions h)).

Definition turns (segments : list (list ActionType)) (h : Host) : Host :=
  fold_left (fun h actions => turn actions h) segments h.
End Turns.

(** The application of [index.ts]: the state is the count, and [f] names
    the closure the view builds when the count is [count]. *)
Definition counterApp (f : Number -> nat) (count : Number) : NodeType :=
  counterViewWith (f count) count.
Arguments counterApp f count%_Z.

(** Every second element of a list, from the second on. *)
Fixpoint everySecond {A : Type} (l : list A) : list A :=
  match l with
  | _ :: y :: rest => y :: everySecond rest
  | _ => []
  end.

(** * Properties *)

(** ** 10. Induction on trees, and the algebra of effects *)

Lemma NodeType_ind' (P : NodeType -> Prop) :
  (forall tag attributes children,
      Forall P children -> P (VNode tag attributes children)) ->
  (forall s, P (JString s)) ->
  (forall n, P (JNumber n)) ->
  forall n, P n.
Proof.
  intros HV HS HN.
  fix IH 1. intros [tag attributes children | s | n].
  - apply HV. induction children as [| c cs IHcs]; constructor.
    + apply IH.
    + exact IHcs.
  - apply HS.
  - apply HN.
Qed.

Lemma andThen_ext (m1 m2 m2' : Effect) (r : Ref) :
  (forall r', m2 r' = m2' r') -> (m1 ;; m2) r = (m1 ;; m2') r.
Proof.
  intros H. unfold andThen. destruct (thrown (m1 r)); [reflexivity |].
  rewrite H. reflexivity.
Qed.

Lemma onChild_ext (index : nat) (m m' : Effect) (r : Ref) :
  (forall r', m r' = m' r') -> onChild index m r = onChild index m' r.
Proof. intros H. unfold onChild. rewrite H. reflexivity. Qed.

Lemma updateWith_ext (l1 l2 : Effect) oldNode newNode index r :
  (forall r', l1 r' = l2 r') ->
  updateWith l1 oldNode newNode index r = updateWith l2 oldNode newNode index r.
Proof.
  intros H. unfold updateWith. apply andThen_ext. intros parent.
  destruct (falsy newNode); [reflexivity |].
  destruct (detectVirtualDOMDifference (Some oldNode) newNode) as [[] | e];
    simpl; try reflexivity.
  destruct (isVNode (Some oldNode) && isVNode newNode); [| reflexivity].
  apply onChild_ext, H.
Qed.

(** ** 11. The child loop is the loop of the source *)

Lemma lookup_head {A} (l : list A) : l !! 0 = head l.
Proof. destruct l; reflexivity. Qed.

Lemma lookup_tail {A} (l : list A) (k : nat) : tail l !! k = l !! S k.
Proof. destruct l; reflexivity. Qed.

Lemma appendRest_childLoop news i allOlds allNews r :
  (forall k, allOlds !! (i + k) = None) ->
  (forall k, allNews !! (i + k) = news !! k) ->
  appendRest news r = childLoop (length news) i allOlds allNews r.
Proof.
  revert i r. induction news as [| n rest IH]; intros i r Holds Hnews.
  - reflexivity.
  - simpl. specialize (Holds 0) as Ho. specialize (Hnews 0) as Hn.
    rewrite Nat.add_0_r in Ho, Hn. rewrite Ho, Hn. simpl.
    apply andThen_ext. intros r'. apply IH.
    + intros k. replace (S i + k) with (i + S k) by lia. apply Holds.
    + intros k. replace (S i + k) with (i + S k) by lia. apply Hnews.
Qed.

Lemma structuralLoop_childLoop olds news i allOlds allNews r :
  (forall k, allOlds !! (i + k) = olds !! k) ->
  (forall k, allNews !! (i + k) = news !! k) ->
  structuralLoop olds news i r
  = childLoop (max (length news) (length olds)) i allOlds allNews r.
Proof.
  revert news i r. induction olds as [| o olds' IH]; intros news i r Holds Hnews.
  - simpl. rewrite Nat.max_0_r. apply appendRest_childLoop; assumption.
  - assert (Hlen : max (length news) (length (o :: olds'))
                   = S (max (length (tail news)) (length olds'))).
    { destruct news; simpl; lia. }
    rewrite Hlen. simpl.
    specialize (Holds 0) as Ho. specialize (Hnews 0) as Hn.
    rewrite Nat.add_0_r in Ho, Hn. rewrite Ho, Hn, !lookup_head. simpl.
    apply andThen_ext. intros r'. apply IH.
    + intros k. replace (S i + k) with (i + S k) by lia. apply Holds.
    + intros k. replace (S i + k) with (i + S k) by lia.
      rewrite lookup_tail. apply Hnews.
Qed.

(** [updateElement] on a defined [oldNode] is the body of the source with
    the source's loop over the children. *)
Lemma updateDefined_eq oldNode newNode index r :
  updateDefined oldNode newNode index r
  = updateWith (updateChildren (childrenOf (Some oldNode)) (childrenOf newNode))
               oldNode newNode index r.
Proof.
  destruct oldNode as [tag attributes olds | s | n].
  - change (updateDefined (VNode tag attributes olds) newNode index)
      with (updateWith (structuralLoop olds (childrenOf newNode) 0)
                       (VNode tag attributes olds) newNode index).
    apply updateWith_ext. intros r'. unfold updateChildren. simpl.
    apply structuralLoop_childLoop; intros k; reflexivity.
  - simpl. unfold updateWith. apply andThen_ext. intros parent.
    destruct (falsy newNode); [reflexivity |].
    destruct (detectVirtualDOMDifference (Some (JString s)) newNode) as [[] | e];
      reflexivity.
  - simpl. unfold updateWith. apply andThen_ext. intros parent.
    destruct (falsy newNode); [reflexivity |].
    destruct (detectVirtualDOMDifference (Some (JNumber n)) newNode) as [[] | e];
      reflexivity.
Qed.

(** Open [updateElement] on a defined [oldNode] and a defined receiver, up
    to the test of [newNode]. *)
Ltac open_update :=
  unfold updateElement; rewrite updateDefined_eq;
  unfold updateWith, andThen, requireReceiver, skip;
  cbn [thrown node calls].

Ltac open_update_in H :=
  unfold updateElement in H; rewrite updateDefined_eq in H;
  unfold updateWith, andThen, requireReceiver, skip in H;
  cbn [thrown node calls] in H.

(** ** 12. Difference detection *)

Lemma detect_vnodes tag1 a1 cs1 tag2 a2 cs2 :
  detectVirtualDOMDifference (Some (VNode tag1 a1 cs1)) (Some (VNode tag2 a2 cs2))
  = Return
      (if negb (bool_decide (tag1 = tag2)) then CT_Node
       else if negb (bool_decide (valueOf a1 = valueOf a2)) then CT_Value
       else if negb (bool_decide (JSON_stringify a1 = JSON_stringify a2))
       then CT_Attr else CT_None).
Proof.
  unfold detectVirtualDOMDifference. simpl.
  repeat (destruct (negb _); try reflexivity).
Qed.

(** C7, the input at which the claim fails: with both sides absent the
    classifier does not return a change kind, it throws a [TypeError]. *)
Lemma detect_absent_absent_throws :
  detectVirtualDOMDifference None None = Throw TypeError
  /\ ~ exists c, detectVirtualDOMDifference None None = Return c.
Proof.
  split; [reflexivity |]. intros [c Hc]. discriminate Hc.
Qed.

(** C7, as amended: for every pair of optional nodes of which at least one
    is present, [detectVirtualDOMDifference] returns a change kind, and only
    one; when exactly one side is absent that kind is [Type]. *)
Theorem detect_total_when_one_present (oldNode newNode : option NodeType) :
  oldNode <> None \/ newNode <> None ->
  exists c,
    detectVirtualDOMDifference oldNode newNode = Return c
    /\ (forall c', detectVirtualDOMDifference oldNode newNode = Return c' -> c' = c)
    /\ (oldNode = None \/ newNode = None -> c = CT_Type).
Proof.
  intros Hpresent.
  assert (Hret : exists c, detectVirtualDOMDifference oldNode newNode = Return c
                           /\ (oldNode = None \/ newNode = None -> c = CT_Type)).
  { destruct oldNode as [[t1 a1 cs1 | s1 | n1] |],
             newNode as [[t2 a2 cs2 | s2 | n2] |];
      try (eexists; split; [reflexivity | intros [? | ?]; congruence]);
      try (eexists; split; [reflexivity | reflexivity]).
    - rewrite detect_vnodes. eexists; split; [reflexivity |].
      intros [? | ?]; congruence.
    - unfold detectVirtualDOMDifference; simpl.
      destruct (negb _); eexists; (split; [reflexivity | intros [? | ?]; congruence]).
    - unfold detectVirtualDOMDifference; simpl.
      destruct (negb _); eexists; (split; [reflexivity | intros [? | ?]; congruence]).
    - destruct Hpresent; congruence. }
  destruct Hret as (c & Hc & Habsent). exists c. split; [exact Hc |]. split.
  - intros c' Hc'. rewrite Hc in Hc'. congruence.
  - exact Habsent.
Qed.

Lemma detect_total_when_one_present_witness :
  exists c,
    detectVirtualDOMDifference (Some (JNumber 0)) None = Return c
    /\ (forall c', detectVirtualDOMDifference (Some (JNumber 0)) None = Return c'
                   -> c' = c)
    /\ (Some (JNumber 0) = None \/ @None NodeType = None -> c = CT_Type).
Proof.
  apply (detect_total_when_one_present (Some (JNumber 0)) None).
  left. discriminate.
Defined.

(** ** 13. The value property *)

(** C1: two elements with the same tag whose ["value"] attributes differ
    are classified [Value], whatever their other attributes, and the update
    of the position is one assignment to the [value] property of the native
    node in place: no attribute, listener or child of it changes, nothing is
    replaced and no node is created. *)
Theorem value_change_updates_value_only
    (tag : string) (a1 a2 : option Attributes) (cs1 cs2 : list NodeType)
    (index : nat) (parent target : DOMNode) :
  valueOf a1 <> valueOf a2 ->
  childNodesOf parent !! index = Some target ->
  detectVirtualDOMDifference (Some (VNode tag a1 cs1)) (Some (VNode tag a2 cs2))
  = Return CT_Value
  /\ updateElement (Some (VNode tag a1 cs1)) (Some (VNode tag a2 cs2)) index
       (Some parent)
     = mkOutcome
         (Some (withChildNodes parent
                  (<[index := setValue (valueOf a2) target]> (childNodesOf parent))))
         [OnChild index (SetValue (valueOf a2))]
         None.
Proof.
  intros Hvalue Htarget.
  assert (Hdetect :
    detectVirtualDOMDifference (Some (VNode tag a1 cs1)) (Some (VNode tag a2 cs2))
    = Return CT_Value).
  { rewrite detect_vnodes. rewrite bool_decide_eq_true_2 by reflexivity.
    rewrite (bool_decide_eq_false_2 _ Hvalue). reflexivity. }
  split; [exact Hdetect |].
  open_update. cbn [falsy]. rewrite Hdetect. cbn [withResult attributesOf].
  unfold onChild, childAt, updateValue. rewrite Htarget. reflexivity.
Qed.

Lemma value_change_updates_value_only_witness :
  detectVirtualDOMDifference (Some (inputWith "a")) (Some (inputWith "b"))
  = Return CT_Value
  /\ updateElement (Some (inputWith "a")) (Some (inputWith "b")) 0
       (Some (mountPoint [nativeInput "a"]))
     = mkOutcome
         (Some (mountPoint [setValue (Some (AString "b")) (nativeInput "a")]))
         [OnChild 0 (SetValue (Some (AString "b")))]
         None.
Proof.
  apply (value_change_updates_value_only "input"
           (Some [("type", AString "text"); ("value", AString "a")])
           (Some [("type", AString "text"); ("value", AString "b")])
           [] [] 0
           (mountPoint [nativeInput "a"]) (nativeInput "a")).
  - vm_compute. discriminate.
  - reflexivity.
Defined.

(** ** 14. Attribute updates *)

Lemma removeLoop_element olds tag a l v cs :
  removeLoop olds (Some (Element tag a l v cs))
  = mkOutcome
      (Some (Element tag (dropAll (plainAttributes (Some olds)) a) l v cs))
      (removals (Some olds)) None.
Proof.
  revert a. induction olds as [| [k w] rest IH]; intros a.
  - reflexivity.
  - unfold removals, plainAttributes, dropAll in *. cbn [removeLoop properties] in *.
    rewrite filter_cons. cbn [fst]. unfold andThen.
    destruct (isEventAttr k) eqn:Hk; cbn [negb].
    + rewrite decide_False by discriminate. cbn. rewrite IH.
      reflexivity.
    + rewrite decide_True by reflexivity. cbn. rewrite IH. reflexivity.
Qed.

Lemma setLoop_element news tag a l v cs :
  setLoop news (Some (Element tag a l v cs))
  = mkOutcome
      (Some (Element tag (putAll (plainAttributes (Some news)) a) l v cs))
      (settings (Some news)) None.
Proof.
  revert a. induction news as [| [k w] rest IH]; intros a.
  - reflexivity.
  - unfold settings, plainAttributes, putAll in *. cbn [setLoop properties] in *.
    rewrite filter_cons. cbn [fst]. unfold andThen.
    destruct (isEventAttr k) eqn:Hk; cbn [negb].
    + rewrite decide_False by discriminate. cbn. rewrite IH.
      reflexivity.
    + rewrite decide_True by reflexivity. cbn. rewrite IH. reflexivity.
Qed.

Lemma updateAttributes_element oldA newA tag a l v cs :
  updateAttributes oldA newA (Some (Element tag a l v cs))
  = mkOutcome
      (Some (Element tag
               (putAll (plainAttributes newA) (dropAll (plainAttributes oldA) a))
               l v cs))
      (removals oldA ++ settings newA) None.
Proof.
  unfold updateAttributes, andThen.
  replace (plainAttributes oldA) with (plainAttributes (Some (properties oldA)))
    by (destruct oldA; reflexivity).
  replace (plainAttributes newA) with (plainAttributes (Some (properties newA)))
    by (destruct newA; reflexivity).
  replace (removals oldA) with (removals (Some (properties oldA)))
    by (destruct oldA; reflexivity).
  replace (settings newA) with (settings (Some (properties newA)))
    by (destruct newA; reflexivity).
  rewrite removeLoop_element. cbn [thrown node calls].
  rewrite setLoop_element. reflexivity.
Qed.

Lemma plain_not_event attributes kv :
  kv ∈ plainAttributes attributes -> isEventAttr (fst kv) = false.
Proof.
  unfold plainAttributes. intros H. apply list_elem_of_filter in H. tauto.
Qed.

(** C10: on an element, [updateAttributes] first calls [removeAttribute]
    for every non-event key of the old mapping, whether or not the new
    mapping has it with the same value, then [setAttribute] for every
    non-event key of the new mapping; no call names a key that starts with
    ["on"], and the listeners, the [value] property and the children of the
    element stay as they were. *)
Theorem updateAttributes_removes_all_then_sets_all
    (oldAttributes newAttributes : option Attributes)
    (tag : string) (a l : list (string * AttributeValue))
    (v : option JSValue) (cs : list DOMNode) :
  let o := updateAttributes oldAttributes newAttributes
             (Some (Element tag a l v cs)) in
  calls o = removals oldAttributes ++ settings newAttributes
  /\ thrown o = None
  /\ node o
     = Some (Element tag
               (putAll (plainAttributes newAttributes)
                       (dropAll (plainAttributes oldAttributes) a))
               l v cs)
  /\ (forall k w, (k, w) ∈ properties oldAttributes -> isEventAttr k = false ->
        RemoveAttribute k ∈ removals oldAttributes)
  /\ (forall k w, (k, w) ∈ properties newAttributes -> isEventAttr k = false ->
        SetAttribute k w ∈ settings newAttributes)
  /\ (forall c, c ∈ calls o ->
        exists name, attributeNamed c = Some name /\ isEventAttr name = false).
Proof.
  cbn zeta. rewrite updateAttributes_element. cbn [calls thrown node].
  repeat split.
  - intros k w Hin Hk. unfold removals.
    apply (list_elem_of_fmap_2 (fun kv => RemoveAttribute (fst kv)) _ (k, w)).
    unfold plainAttributes. apply list_elem_of_filter. split; assumption.
  - intros k w Hin Hk. unfold settings.
    apply (list_elem_of_fmap_2 (fun kv => SetAttribute (fst kv) (snd kv)) _ (k, w)).
    unfold plainAttributes. apply list_elem_of_filter. split; assumption.
  - intros c Hc. apply elem_of_app in Hc as [Hc | Hc].
    + unfold removals in Hc. apply list_elem_of_fmap in Hc as (kv & -> & Hkv).
      exists (fst kv). split; [reflexivity |]. eapply plain_not_event, Hkv.
    + unfold settings in Hc. apply list_elem_of_fmap in Hc as (kv & -> & Hkv).
      exists (fst kv). split; [reflexivity |]. eapply plain_not_event, Hkv.
Qed.

(** ** 15. Changed attributes *)

Lemma detect_attr_vnodes oldNode newNode :
  detectVirtualDOMDifference (Some oldNode) (Some newNode) = Return CT_Attr ->
  exists tag1 a1 cs1 tag2 a2 cs2,
    oldNode = VNode tag1 a1 cs1 /\ newNode = VNode tag2 a2 cs2.
Proof.
  destruct oldNode as [t1 a1 cs1 | s1 | n1], newNode as [t2 a2 cs2 | s2 | n2];
    intros H; try discriminate H.
  - repeat eexists.
  - unfold detectVirtualDOMDifference in H; simpl in H.
    destruct (negb _) in H; discriminate H.
  - unfold detectVirtualDOMDifference in H; simpl in H.
    destruct (negb _) in H; discriminate H.
Qed.

(** C2, the input at which the claim fails: a [div] whose class and whose
    text both change is classified [Attr]; the update sets the class and
    returns, the text child is not reconciled and keeps the old text. *)
Lemma attributes_changed_children_not_reconciled :
  detectVirtualDOMDifference (Some (boxWith "a" "x")) (Some (boxWith "b" "y"))
  = Return CT_Attr
  /\ updateElement (Some (boxWith "a" "x")) (Some (boxWith "b" "y")) 0
       (Some (mountPoint [nativeBox "a" "x"]))
     = mkOutcome
         (Some (mountPoint [nativeBox "b" "x"]))
         [OnChild 0 (RemoveAttribute "class");
          OnChild 0 (SetAttribute "class" (AString "b"))]
         None
  /\ updateElement (Some (boxWith "a" "x")) (Some (boxWith "b" "y")) 0
       (Some (mountPoint [nativeBox "a" "x"]))
     <> attributesThenChildren (Some (boxWith "a" "x")) (Some (boxWith "b" "y")) 0
          (Some (mountPoint [nativeBox "a" "x"])).
Proof.
  split; [reflexivity |]. split; [reflexivity |].
  vm_compute. discriminate.
Qed.

(** C2, as amended: for two elements classified [Attr], the update applies
    the attribute update to the native node in place and returns; every
    native call is a [removeAttribute] or a [setAttribute] on that node, and
    its children are the ones it had. *)
Theorem attributes_changed_updates_attributes_only
    (oldNode newNode : NodeType) (index : nat) (parent : DOMNode)
    (tag : string) (a l : list (string * AttributeValue))
    (v : option JSValue) (cs : list DOMNode) :
  detectVirtualDOMDifference (Some oldNode) (Some newNode) = Return CT_Attr ->
  childNodesOf parent !! index = Some (Element tag a l v cs) ->
  updateElement (Some oldNode) (Some newNode) index (Some parent)
  = mkOutcome
      (Some (withChildNodes parent
               (<[index :=
                    Element tag
                      (putAll (plainAttributes (attributesOf (Some newNode)))
                         (dropAll (plainAttributes (attributesOf (Some oldNode))) a))
                      l v cs]> (childNodesOf parent))))
      (map (OnChild index)
           (removals (attributesOf (Some oldNode))
            ++ settings (attributesOf (Some newNode))))
      None.
Proof.
  intros Hdetect Htarget.
  destruct (detect_attr_vnodes _ _ Hdetect)
    as (tag1 & a1 & cs1 & tag2 & a2 & cs2 & -> & ->).
  open_update. cbn [falsy]. rewrite Hdetect. cbn [withResult].
  unfold onChild, childAt. rewrite Htarget.
  rewrite updateAttributes_element. reflexivity.
Qed.

Lemma attributes_changed_updates_attributes_only_witness :
  updateElement (Some (boxWith "a" "x")) (Some (boxWith "b" "y")) 0
    (Some (mountPoint [nativeBox "a" "x"]))
  = mkOutcome
      (Some (mountPoint [nativeBox "b" "x"]))
      [OnChild 0 (RemoveAttribute "class");
       OnChild 0 (SetAttribute "class" (AString "b"))]
      None.
Proof.
  apply (attributes_changed_updates_attributes_only
           (boxWith "a" "x") (boxWith "b" "y") 0
           (mountPoint [nativeBox "a" "x"])
           "div" [("class", AString "a")] [] None [Text "x" None]).
  - reflexivity.
  - reflexivity.
Defined.

(** ** 16. Replacement *)

(** C3, what the code does: at a position classified [Type], [Text] or
    [Node] the native node is replaced by the freshly built one and the
    children are not visited, but the update does not stop there: it goes
    on to assign the [value] property of the node it has just taken out of
    the tree. *)
Theorem replacement_also_assigns_value
    (oldNode newNode : NodeType) (index : nat) (parent target fresh : DOMNode)
    (c : ChangedType) :
  falsy (Some newNode) = false ->
  detectVirtualDOMDifference (Some oldNode) (Some newNode) = Return c ->
  c = CT_Type \/ c = CT_Text \/ c = CT_Node ->
  createElement newNode = Return fresh ->
  childNodesOf parent !! index = Some target ->
  updateElement (Some oldNode) (Some newNode) index (Some parent)
  = mkOutcome
      (Some (withChildNodes parent (<[index := fresh]> (childNodesOf parent))))
      [ReplaceChild fresh index;
       OnDetached index (SetValue (valueOf (attributesOf (Some newNode))))]
      None.
Proof.
  intros Htruthy Hdetect Hc Hfresh Htarget.
  open_update. rewrite Htruthy, Hdetect. cbn [withResult].
  destruct Hc as [-> | [-> | ->]];
    cbn [withResult createElementOf]; rewrite Hfresh; cbn [withResult];
    unfold replaceChildE, onDetached, updateValue, childAt;
    rewrite Htarget; reflexivity.
Qed.

Lemma replacement_also_assigns_value_witness :
  updateElement (Some (bare "div")) (Some (bare "span")) 0
    (Some (mountPoint [nativeBare "div"]))
  = mkOutcome
      (Some (mountPoint [nativeBare "span"]))
      [ReplaceChild (nativeBare "span") 0; OnDetached 0 (SetValue None)]
      None.
Proof.
  apply (replacement_also_assigns_value (bare "div") (bare "span") 0
           (mountPoint [nativeBare "div"]) (nativeBare "div") (nativeBare "span")
           CT_Node).
  - reflexivity.
  - reflexivity.
  - right. right. reflexivity.
  - reflexivity.
  - reflexivity.
Defined.

(** ** 17. Removal *)

Lemma not_remove_in_onChild index j (l : list NativeCall) :
  RemoveChild j ∉ map (OnChild index) l.
Proof. intros H. apply list_elem_of_fmap in H as (c & Hc & _). discriminate Hc. Qed.

(** The calls of the replacing branch, whatever [createElement] does. *)
Lemma not_remove_in_replacement newNode index target parent j :
  RemoveChild j
  ∉ calls ((withResult (createElementOf newNode)
              (fun fresh => replaceChildE fresh index) ;;
            onDetached index target
              (updateValue (valueOf (attributesOf newNode)))) parent).
Proof.
  unfold andThen, withResult.
  destruct (createElementOf newNode) as [fresh | e]; [| apply not_elem_of_nil].
  unfold replaceChildE, onDetached, updateValue, throw.
  destruct parent as [p |]; [| apply not_elem_of_nil].
  destruct (childAt index (Some p)); [| apply not_elem_of_nil].
  cbn [thrown calls node]. intros Hin.
  apply elem_of_app in Hin as [Hin | Hin].
  - apply list_elem_of_singleton in Hin. discriminate Hin.
  - apply list_elem_of_fmap in Hin as (c & Hc & _). discriminate Hc.
Qed.

(** C4, what the code does: with [oldNode] present and a native child at
    [index], that child is removed exactly when [newNode] is falsy: when it
    is absent, and also when it is the number [0] or the empty string. *)
Theorem child_removed_iff_new_falsy
    (oldNode : NodeType) (newNode : option NodeType) (index : nat)
    (parent target : DOMNode) :
  childNodesOf parent !! index = Some target ->
  (RemoveChild index
     ∈ calls (updateElement (Some oldNode) newNode index (Some parent))
   <-> falsy newNode = true)
  /\ (falsy newNode = true ->
      updateElement (Some oldNode) newNode index (Some parent)
      = mkOutcome
          (Some (withChildNodes parent (delete index (childNodesOf parent))))
          [RemoveChild index] None).
Proof.
  intros Htarget.
  assert (Hremove : falsy newNode = true ->
      updateElement (Some oldNode) newNode index (Some parent)
      = mkOutcome
          (Some (withChildNodes parent (delete index (childNodesOf parent))))
          [RemoveChild index] None).
  { intros Hfalsy. open_update. rewrite Hfalsy.
    unfold removeChildE, childAt. rewrite Htarget. reflexivity. }
  split; [| exact Hremove]. split.
  - intros Hin. destruct (falsy newNode) eqn:Hfalsy; [reflexivity | exfalso].
    open_update_in Hin. rewrite Hfalsy in Hin.
    destruct (detectVirtualDOMDifference (Some oldNode) newNode) as [[] | e];
      cbn [withResult] in Hin;
      try (apply not_remove_in_replacement in Hin; exact Hin);
      try (apply not_remove_in_onChild in Hin; exact Hin);
      try (apply elem_of_nil in Hin; exact Hin).
    destruct (isVNode (Some oldNode) && isVNode newNode).
    + apply not_remove_in_onChild in Hin; exact Hin.
    + apply elem_of_nil in Hin; exact Hin.
  - intros Hfalsy. rewrite (Hremove Hfalsy). cbn. apply list_elem_of_here.
Qed.

Lemma child_removed_iff_new_falsy_witness :
  (RemoveChild 0
     ∈ calls (updateElement (Some (JNumber 1)) (Some (JNumber 0)) 0
                (Some (nativeParagraph "1")))
   <-> falsy (Some (JNumber 0)) = true)
  /\ (falsy (Some (JNumber 0)) = true ->
      updateElement (Some (JNumber 1)) (Some (JNumber 0)) 0
        (Some (nativeParagraph "1"))
      = mkOutcome
          (Some (withChildNodes (nativeParagraph "1")
                   (delete 0 (childNodesOf (nativeParagraph "1")))))
          [RemoveChild 0] None).
Proof.
  apply (child_removed_iff_new_falsy (JNumber 1) (Some (JNumber 0)) 0
           (nativeParagraph "1") (Text "1" None)).
  reflexivity.
Defined.

(** The update of the counter's text from [1] to [0] leaves the paragraph
    empty. *)
Example counter_back_to_zero :
  updateElement (Some (JNumber 1)) (Some (JNumber 0)) 0
    (Some (nativeParagraph "1"))
  = mkOutcome (Some (Element "p" [] [] None [])) [RemoveChild 0] None.
Proof. reflexivity. Qed.

(** A text that is [NaN] is falsy too: reconciled with itself, it is
    removed. *)
Example nan_reconciled_with_itself_is_removed :
  createElement (h "p" None [JNumber S754_nan]) = Return (nativeParagraph "NaN")
  /\ updateElement (Some (JNumber S754_nan)) (Some (JNumber S754_nan)) 0
       (Some (nativeParagraph "NaN"))
     = mkOutcome (Some (Element "p" [] [] None [])) [RemoveChild 0] None.
Proof. split; reflexivity. Qed.

(** ** 18. Reconciling a tree with itself *)

(** C5, the input at which the claim fails: the same mapping written in
    two key orders is told apart by the serialisation, and the update
    removes and sets both attributes. *)
Lemma same_mapping_other_order_mutates :
  sameTree pairAB pairBA
  /\ calls (updateElement (Some pairAB) (Some pairBA) 0
             (Some (mountPoint [nativePairAB])))
     = [OnChild 0 (RemoveAttribute "a"); OnChild 0 (RemoveAttribute "b");
        OnChild 0 (SetAttribute "b" (AString "2"));
        OnChild 0 (SetAttribute "a" (AString "1"))]
  /\ calls (updateElement (Some pairAB) (Some pairBA) 0
             (Some (mountPoint [nativePairAB]))) <> [].
Proof.
  split.
  - apply same_vnode; [apply perm_swap | constructor].
  - split; [reflexivity | vm_compute; discriminate].
Qed.

Lemma quiet_andThen (m1 m2 : Effect) (r : Ref) :
  quiet (m1 r) r -> (forall r', quiet (m2 r') r') -> quiet ((m1 ;; m2) r) r.
Proof.
  intros [Hc1 Hn1] H2. unfold andThen.
  destruct (thrown (m1 r)); [split; assumption |].
  destruct (H2 (node (m1 r))) as [Hc2 Hn2]. split; cbn.
  - rewrite Hc1, Hc2. reflexivity.
  - rewrite Hn2. exact Hn1.
Qed.

Lemma quiet_onChild index (m : Effect) (r : Ref) :
  (forall r', quiet (m r') r') -> quiet (onChild index m r) r.
Proof.
  intros H. unfold onChild.
  destruct (H (childAt index r)) as [Hc Hn]. split; cbn.
  - rewrite Hc. reflexivity.
  - rewrite Hn. destruct r as [p |]; [| reflexivity].
    destruct (childAt index (Some p)) as [t |] eqn:Ht; [| reflexivity].
    cbn in Ht. rewrite list_insert_id by exact Ht.
    destruct p; reflexivity.
Qed.

(** A number other than [NaN] equals itself. *)
Lemma SFeqb_same (x : Number) : x <> S754_nan -> SFeqb x x = true.
Proof.
  intros Hx. unfold SFeqb.
  destruct x as [[] | [] | | [] m e]; try reflexivity; try congruence;
    cbn [SFcompare]; rewrite Z.compare_refl, Pos.compare_cont_refl;
    reflexivity.
Qed.

Lemma truthy_not_nan (x : Number) : falsyNumber x = false -> x <> S754_nan.
Proof. intros H ->. discriminate H. Qed.

(** A node classified against itself: no difference, unless it is the
    number [NaN], which differs from itself. *)
Lemma detect_same (n : NodeType) :
  n <> JNumber S754_nan ->
  detectVirtualDOMDifference (Some n) (Some n) = Return CT_None.
Proof.
  intros Hn. destruct n as [tag a cs | s | z].
  - rewrite detect_vnodes. rewrite !bool_decide_eq_true_2 by reflexivity.
    reflexivity.
  - unfold detectVirtualDOMDifference.
    replace (isVNode (Some (JString s))) with false by reflexivity.
    cbn [typeof strictlyEqual]. rewrite !bool_decide_eq_true_2 by reflexivity.
    reflexivity.
  - unfold detectVirtualDOMDifference.
    replace (isVNode (Some (JNumber z))) with false by reflexivity.
    cbn [typeof strictlyEqual]. rewrite bool_decide_eq_true_2 by reflexivity.
    rewrite SFeqb_same by congruence. reflexivity.
Qed.

Lemma detect_same_truthy (n : NodeType) :
  falsy (Some n) = false ->
  detectVirtualDOMDifference (Some n) (Some n) = Return CT_None.
Proof.
  intros Hn. apply detect_same. intros ->. discriminate Hn.
Qed.

Lemma quiet_childLoop (cs : list NodeType) :
  Forall (fun c => truthyTree c = true ->
                   forall index r, quiet (updateElement (Some c) (Some c) index r) r)
         cs ->
  forallb truthyTree cs = true ->
  forall n i r, quiet (childLoop n i cs cs r) r.
Proof.
  intros HP Htruthy n. induction n as [| k IH]; intros i r.
  - split; reflexivity.
  - cbn [childLoop]. apply quiet_andThen; [| intros r'; apply IH].
    destruct (cs !! i) as [c |] eqn:Hc.
    + rewrite Forall_forall in HP. apply HP.
      * eapply list_elem_of_lookup_2, Hc.
      * rewrite forallb_forall in Htruthy. apply Htruthy.
        apply list_elem_of_In. eapply list_elem_of_lookup_2, Hc.
    + split; reflexivity.
Qed.

(** C5, as amended: reconciling a tree with itself (the same object, or a
    tree equal to it by value with the attribute keys in the same order)
    performs no native mutation and leaves the native tree as it was,
    provided no node of the tree is falsy: none is the number [0], [-0] or
    [NaN], or the empty string. *)
Theorem reconcile_same_tree_no_mutation (T : NodeType) :
  truthyTree T = true ->
  forall (index : nat) (parent : Ref),
    calls (updateElement (Some T) (Some T) index parent) = []
    /\ node (updateElement (Some T) (Some T) index parent) = parent.
Proof.
  induction T as [tag attributes children IH | s | z] using NodeType_ind';
    intros Htruthy index parent;
    unfold updateElement; rewrite updateDefined_eq; unfold updateWith;
    (apply quiet_andThen;
     [destruct parent; split; reflexivity | intros r]).
  - cbn [falsy]. rewrite detect_same by discriminate.
    cbn [withResult isVNode typeof andb negb].
    cbn. apply quiet_onChild. intros r'. unfold updateChildren.
    apply quiet_childLoop; [exact IH |].
    cbn in Htruthy. exact Htruthy.
  - cbn [truthyTree] in Htruthy. apply andb_true_iff in Htruthy as [Hs _].
    apply negb_true_iff in Hs. rewrite Hs, detect_same_truthy by exact Hs.
    split; reflexivity.
  - cbn [truthyTree] in Htruthy. apply andb_true_iff in Htruthy as [Hz _].
    apply negb_true_iff in Hz. rewrite Hz, detect_same_truthy by exact Hz.
    split; reflexivity.
Qed.

Lemma reconcile_same_tree_no_mutation_witness :
  calls (updateElement (Some (counterView 7)) (Some (counterView 7)) 0
           (Some (mountPoint [nativeCounter "7"])))
  = []
  /\ node (updateElement (Some (counterView 7)) (Some (counterView 7)) 0
             (Some (mountPoint [nativeCounter "7"])))
     = Some (mountPoint [nativeCounter "7"]).
Proof.
  apply (reconcile_same_tree_no_mutation (counterView 7)). reflexivity.
Defined.


(** ** 19. Materialising a tree and reading it back *)

(** C8, the input at which the claim fails: the button of [index.ts]
    declares [type] and [onclick]; the native button has the attribute
    [type] only, the handler is a listener for [click]. *)
Lemma event_attribute_not_read_back :
  createElement countUpButton = Return nativeCountUpButton
  /\ readBack nativeCountUpButton
     = h "button" (Some [("type", AString "button")]) [JString "count up"]
  /\ listenersOf nativeCountUpButton = [("click", AFunction 1)]
  /\ readBack nativeCountUpButton <> countUpButton.
Proof.
  split; [reflexivity |]. split; [reflexivity |]. split; [reflexivity |].
  vm_compute. discriminate.
Qed.

Lemma putAttribute_fresh name v attrs :
  name ∉ map fst attrs -> putAttribute name v attrs = attrs ++ [(name, v)].
Proof.
  induction attrs as [| [k w] rest IH]; intros Hfresh.
  - reflexivity.
  - cbn [putAttribute]. cbn in Hfresh.
    apply not_elem_of_cons in Hfresh as [Hne Hrest].
    destruct (String.eqb k name) eqn:Hk.
    + apply String.eqb_eq in Hk. congruence.
    + rewrite IH by exact Hrest. reflexivity.
Qed.

Lemma event_name_shape k :
  isEventAttr k = true -> k = String "o" (String "n" (slice2 k)).
Proof.
  unfold isEventAttr. intros H. apply String.prefix_correct in H.
  destruct k as [| c [| d r]]; cbn [String.substring String.length] in H;
    try discriminate H.
  injection H as -> -> _. reflexivity.
Qed.

Lemma slice2_injective k1 k2 :
  isEventAttr k1 = true -> isEventAttr k2 = true ->
  slice2 k1 = slice2 k2 -> k1 = k2.
Proof.
  intros H1 H2 Heq.
  rewrite (event_name_shape k1 H1), (event_name_shape k2 H2), Heq. reflexivity.
Qed.

Lemma event_holds_function k w :
  wellKinded (k, w) = true -> isEventAttr k = true -> exists f, w = AFunction f.
Proof.
  unfold wellKinded. cbn [fst snd]. destruct w as [s | f]; intros Hk Hev.
  - rewrite Hev in Hk. discriminate Hk.
  - exists f. reflexivity.
Qed.

Lemma setAttributesLoop_element attributes tag a l v cs :
  NoDup (map fst attributes) ->
  forallb wellKinded attributes = true ->
  (forall k, k ∈ map fst attributes -> isEventAttr k = false -> k ∉ map fst a) ->
  (forall k, k ∈ map fst attributes -> isEventAttr k = true ->
             slice2 k ∉ map fst l) ->
  setAttributesLoop attributes (Element tag a l v cs)
  = Return (Element tag (a ++ plainAttributes (Some attributes))
              (l ++ map asListener (eventAttributes (Some attributes))) v cs).
Proof.
  unfold plainAttributes, eventAttributes. cbn [properties].
  revert a l.
  induction attributes as [| [k w] rest IH]; intros a l Hnodup Hkinds Ha Hl.
  - cbn. rewrite !app_nil_r. reflexivity.
  - cbn [map fst] in Hnodup. apply NoDup_cons in Hnodup as [Hk Hrest].
    cbn [forallb] in Hkinds. apply andb_true_iff in Hkinds as [Hkind Hkinds].
    cbn [setAttributesLoop]. destruct (isEventAttr k) eqn:Hev.
    + destruct (event_holds_function k w Hkind Hev) as [f ->].
      rewrite filter_cons_False by (cbn [fst]; congruence).
      rewrite filter_cons_True by (cbn [fst]; congruence).
      cbn [addEventListener].
      rewrite bool_decide_eq_false_2.
      2:{ intros Hin. apply (Hl k); [apply list_elem_of_here | exact Hev |].
          apply (list_elem_of_fmap_2 fst) in Hin. exact Hin. }
      rewrite IH; [| exact Hrest | exact Hkinds | |].
      * cbn [map asListener fst snd]. rewrite <- app_assoc. reflexivity.
      * intros k' Hk' Hplain.
        apply Ha; [apply list_elem_of_further, Hk' | exact Hplain].
      * intros k' Hk' Hev'. rewrite map_app. cbn [map fst].
        apply not_elem_of_app. split.
        -- apply Hl; [apply list_elem_of_further, Hk' | exact Hev'].
        -- intros Hin. apply list_elem_of_singleton in Hin.
           apply slice2_injective in Hin; [| exact Hev' | exact Hev].
           subst k'. contradiction.
    + rewrite filter_cons_True by (cbn [fst]; congruence).
      rewrite filter_cons_False by (cbn [fst]; congruence).
      cbn [setAttribute].
      rewrite putAttribute_fresh
        by (apply Ha; [apply list_elem_of_here | exact Hev]).
      rewrite IH; [| exact Hrest | exact Hkinds | |].
      * rewrite <- app_assoc. reflexivity.
      * intros k' Hk' Hplain. rewrite map_app. cbn [map fst].
        apply not_elem_of_app. split.
        -- apply Ha; [apply list_elem_of_further, Hk' | exact Hplain].
        -- intros Hin. apply list_elem_of_singleton in Hin. subst k'.
           contradiction.
      * intros k' Hk' Hev'.
        apply Hl; [apply list_elem_of_further, Hk' | exact Hev'].
Qed.

Lemma setAttributes_fresh_element tag attributes :
  NoDup (map fst (properties attributes)) ->
  forallb wellKinded (properties attributes) = true ->
  setAttributes (document_createElement tag) attributes
  = Return (Element tag (plainAttributes attributes)
              (map asListener (eventAttributes attributes)) None []).
Proof.
  intros Hnodup Hkinds. unfold document_createElement, setAttributes.
  destruct attributes as [attrs |]; [| reflexivity].
  rewrite setAttributesLoop_element; try assumption.
  - reflexivity.
  - intros k _ _ Hin. cbn in Hin. apply elem_of_nil in Hin. exact Hin.
  - intros k _ _ Hin. cbn in Hin. apply elem_of_nil in Hin. exact Hin.
Qed.

(** The loop over the children appends what each child builds. *)
Lemma appendChildren_element children tag a l v ds :
  Forall (fun c => exists d, createElement c = Return d
                             /\ readBack d = nativeStructure c) children ->
  exists built,
    appendChildren children (Element tag a l v ds)
    = Return (Element tag a l v (ds ++ built))
    /\ map readBack built = map nativeStructure children.
Proof.
  intros Hchildren. revert ds.
  induction Hchildren as [| c rest (d & Hd & Hread) _ IH]; intros ds.
  - exists []. rewrite app_nil_r. split; reflexivity.
  - cbn [appendChildren]. rewrite Hd.
    unfold appendChild. cbn [withChildNodes childNodesOf].
    destruct (IH (ds ++ [d])) as (built & Hbuilt & Hmap).
    exists (d :: built). split.
    + fold appendChildren. rewrite Hbuilt, <- app_assoc. reflexivity.
    + cbn [map]. rewrite Hread, Hmap. reflexivity.
Qed.

(** The loop over the children appends the native tree of each child. *)
Lemma appendChildren_native children tag a l v ds :
  Forall (fun c => createElement c = Return (nativeTree c)) children ->
  appendChildren children (Element tag a l v ds)
  = Return (Element tag a l v (ds ++ map nativeTree children)).
Proof.
  intros Hchildren. revert ds.
  induction Hchildren as [| c rest Hc _ IH]; intros ds.
  - cbn [map]. rewrite app_nil_r. reflexivity.
  - cbn [appendChildren]. rewrite Hc.
    unfold appendChild. cbn [withChildNodes childNodesOf].
    fold appendChildren. rewrite IH, <- app_assoc. reflexivity.
Qed.

Lemma readBack_nativeTree (n : NodeType) :
  readBack (nativeTree n) = nativeStructure n.
Proof.
  induction n as [tag attributes children IH | s | z] using NodeType_ind';
    [| reflexivity ..].
  cbn [nativeTree readBack nativeStructure]. f_equal.
  rewrite map_map. apply map_ext_Forall. exact IH.
Qed.

(** C8, as amended: for a tree whose attribute objects have each key
    once, with functions under the event names and strings elsewhere, and
    whose tags and attribute names are names the DOM stores as given,
    [createElement] returns the native tree that has, at every node, the
    declared tag, the declared attributes that are not events, the
    declared event properties as listeners, each under its name without
    the first two characters, no [value] assigned, and the children built
    the same way, a leaf being the text of its value.  So the native tree
    reads back as the declared tag, the declared attributes that are not
    events and the children read back the same way; the event properties
    are not read back. *)
Theorem createElement_read_back (n : NodeType) :
  wellFormed n = true ->
  plainNames n = true ->
  exists d,
    createElement n = Return d
    /\ d = nativeTree n
    /\ readBack d = nativeStructure n
    /\ listenersOf d = map asListener (eventAttributes (attributesOf (Some n))).
Proof.
  intros Hwf _.
  assert (Hbuilt : createElement n = Return (nativeTree n)).
  { induction n as [tag attributes children IH | s | z] using NodeType_ind';
      [| reflexivity ..].
    cbn [wellFormed] in Hwf.
    apply andb_true_iff in Hwf as [Hwf Hchildren].
    apply andb_true_iff in Hwf as [Hnodup Hkinds].
    apply bool_decide_eq_true_1 in Hnodup.
    change (createElement (VNode tag attributes children))
      with (match setAttributes (document_createElement tag) attributes with
            | Throw e => Throw e
            | Return element => appendChildren children element
            end).
    rewrite (setAttributes_fresh_element tag attributes Hnodup Hkinds).
    rewrite appendChildren_native; [reflexivity |].
    rewrite Forall_forall in IH. apply Forall_forall. intros c Hc.
    apply IH; [exact Hc |].
    rewrite forallb_forall in Hchildren. apply Hchildren.
    apply list_elem_of_In. exact Hc. }
  exists (nativeTree n). split; [exact Hbuilt |]. split; [reflexivity |].
  split; [apply readBack_nativeTree |].
  destruct n; reflexivity.
Qed.

Lemma createElement_read_back_witness :
  exists d,
    createElement (counterView 0) = Return d
    /\ d = nativeTree (counterView 0)
    /\ readBack d = nativeStructure (counterView 0)
    /\ listenersOf d
       = map asListener (eventAttributes (attributesOf (Some (counterView 0)))).
Proof.
  apply (createElement_read_back (counterView 0)); reflexivity.
Defined.

(** The sample native nodes are what [createElement] builds. *)
Example samples_built :
  createElement (inputWith "a") = Return (nativeInput "a")
  /\ createElement (boxWith "a" "x") = Return (nativeBox "a" "x")
  /\ createElement (bare "div") = Return (nativeBare "div")
  /\ createElement (h "p" None [JNumber 1]) = Return (nativeParagraph "1")
  /\ createElement pairAB = Return nativePairAB
  /\ createElement (counterView 7) = Return (nativeCounter "7").
Proof. repeat split. Qed.

(** A string under an event name is refused by [addEventListener]. *)
Example string_listener_refused :
  createElement (h "button" (Some [("onclick", AString "count()")]) [])
  = Throw TypeError.
Proof. reflexivity. Qed.

(** ** 20. The render cycle *)

Section RenderCycle.
Context {State : Type}.
Variable view : State -> NodeType.

Lemma scheduleRender_pending (h : Host (State := State)) :
  skipRender (app (scheduleRender h)) = true.
Proof.
  unfold scheduleRender. destruct (skipRender (app h)) eqn:Hs; cbn; auto.
Qed.

Lemma scheduleRender_consistent (h : Host (State := State)) :
  consistent h -> consistent (scheduleRender h) /\ timers (scheduleRender h) = 1.
Proof.
  unfold consistent, scheduleRender.
  destruct (skipRender (app h)) eqn:Hs; cbn; intros Hc.
  - rewrite Hs. split; exact Hc.
  - rewrite Hc. split; reflexivity.
Qed.

Lemma scheduleRender_keeps (h : Host (State := State)) :
  state (app (scheduleRender h)) = state (app h)
  /\ oldNode (app (scheduleRender h)) = oldNode (app h)
  /\ newNode (app (scheduleRender h)) = newNode (app h)
  /\ element (app (scheduleRender h)) = element (app h).
Proof.
  unfold scheduleRender. destruct (negb (skipRender (app h))); cbn; auto.
Qed.

(** What one call of a wrapped action leaves behind. *)
Lemma dispatched_spec (action : ActionType) (h : Host) :
  let h' := dispatched view action h in
  state (app h') = action (state (app h))
  /\ newNode (app h') = Some (view (action (state (app h))))
  /\ oldNode (app h') = oldNode (app h)
  /\ element (app h') = element (app h)
  /\ skipRender (app h') = true
  /\ (consistent h -> consistent h' /\ timers h' = 1).
Proof.
  cbn zeta. unfold dispatched, resolveNode.
  match goal with |- context [scheduleRender ?x] => set (h0 := x) end.
  destruct (scheduleRender_keeps h0) as (Hs & Ho & Hn & He).
  rewrite Hs, Ho, Hn, He, scheduleRender_pending. cbn.
  do 5 (split; [reflexivity |]).
  intros Hc. apply scheduleRender_consistent. exact Hc.
Qed.

Lemma segment_snoc (actions : list ActionType) (action : ActionType) (h : Host) :
  segment view (actions ++ [action]) h
  = dispatched view action (segment view actions h).
Proof. unfold segment. rewrite fold_left_app. reflexivity. Qed.

(** The state after a segment, and what the segment leaves pending. *)
Lemma segment_spec (actions : list ActionType) (h : Host) :
  consistent h -> actions <> [] ->
  let h' := segment view actions h in
  let final := fold_left (fun s action => action s) actions (state (app h)) in
  state (app h') = final
  /\ newNode (app h') = Some (view final)
  /\ oldNode (app h') = oldNode (app h)
  /\ element (app h') = element (app h)
  /\ skipRender (app h') = true
  /\ timers h' = 1.
Proof.
  intros Hc. induction actions as [| action rest IH] using rev_ind;
    intros Hne; [congruence |]. cbn zeta.
  rewrite segment_snoc, fold_left_app. cbn [fold_left].
  assert (Hprev : consistent (segment view rest h)
                  /\ state (app (segment view rest h))
                     = fold_left (fun s action => action s) rest (state (app h))
                  /\ oldNode (app (segment view rest h)) = oldNode (app h)
                  /\ element (app (segment view rest h)) = element (app h)).
  { destruct rest as [| a0 rest'].
    - cbn. auto.
    - destruct IH as (Hs & _ & Ho & He & Hp & Ht); [discriminate |].
      repeat split; try assumption.
      unfold consistent. rewrite Hp. exact Ht. }
  destruct Hprev as (Hc' & Hs' & Ho' & He').
  destruct (dispatched_spec action (segment view rest h))
    as (Hs & Hn & Ho & He & Hp & Hcons).
  destruct (Hcons Hc') as [_ Ht].
  rewrite Hs, Hn, Ho, He, Hp, Ht, Hs', Ho', He'. repeat split.
Qed.

Lemma render_pass (a : App (State := State)) :
  passOld (snd (render a)) = oldNode a /\ passNew (snd (render a)) = newNode a.
Proof. unfold render. destruct (thrown _); split; reflexivity. Qed.

Lemma render_completed (a : App (State := State)) :
  passThrown (snd (render a)) = None ->
  oldNode (fst (render a)) = newNode a
  /\ newNode (fst (render a)) = newNode a
  /\ skipRender (fst (render a)) = false
  /\ state (fst (render a)) = state a.
Proof.
  unfold render. destruct (thrown _) eqn:Ht; cbn; [discriminate |].
  intros _. repeat split.
Qed.

Lemma render_thrown (a : App (State := State)) (e : Exn) :
  passThrown (snd (render a)) = Some e ->
  oldNode (fst (render a)) = oldNode a
  /\ skipRender (fst (render a)) = skipRender a.
Proof.
  unfold render. destruct (thrown _) eqn:Ht; cbn; [| discriminate].
  intros _. split; reflexivity.
Qed.

Lemma runTimer_pending (h : Host (State := State)) (n : nat) :
  timers h = S n ->
  runTimer h = (mkHost (fst (render (app h))) n, [snd (render (app h))]).
Proof. intros Ht. unfold runTimer. rewrite Ht. destruct (render (app h)). reflexivity. Qed.

(** The constructor and every step whose render completes keep the flag
    in agreement with the timer queue. *)
Lemma construct_consistent (mount : Ref) (initial : State) :
  consistent (construct view mount initial).
Proof. reflexivity. Qed.

Lemma dispatched_consistent (action : ActionType) (h : Host) :
  consistent h -> consistent (dispatched view action h).
Proof. intros Hc. apply dispatched_spec. exact Hc. Qed.

Lemma runTimer_consistent (h : Host (State := State)) :
  consistent h -> 0 < timers h ->
  passThrown (snd (render (app h))) = None ->
  consistent (fst (runTimer h)).
Proof.
  intros Hc Hpos Hdone.
  destruct (timers h) as [| n] eqn:Ht; [lia |].
  rewrite (runTimer_pending h n Ht). cbn [fst].
  destruct (render_completed (app h) Hdone) as (_ & _ & Hp & _).
  unfold consistent in *. cbn. rewrite Hp.
  destruct (skipRender (app h)); lia.
Qed.

Lemma reachable_consistent (mount : Ref) (initial : State) (h : Host) :
  reachable view mount initial h -> consistent h.
Proof.
  induction 1 as [| action h _ IH | h _ IH Hpos Hdone].
  - apply construct_consistent.
  - apply dispatched_consistent. exact IH.
  - apply runTimer_consistent; assumption.
Qed.

(** C6, as amended: from a state in which the pending flag agrees with
    the timer queue, as it does until a [render] is ended by an exception,
    a synchronous segment of K >= 1 wrapped actions leaves exactly one
    [render] callback queued; running the queue makes exactly one pass.
    That pass reconciles the tree that was current before the segment
    with the view of the state after all K actions, on the mount point
    (or appends that view when there was no tree yet): its native calls
    and its exception are those of this one update, the mount point is
    left as the update leaves it, and when the update completes the view
    of the final state becomes the old tree and the flag is cleared. *)
Theorem segment_makes_one_pass (actions : list ActionType) (h : Host) :
  consistent h ->
  1 <= length actions ->
  let h' := segment view actions h in
  let final := fold_left (fun s action => action s) actions (state (app h)) in
  let o :=
    if negb (falsy (oldNode (app h)))
    then updateElement (oldNode (app h)) (Some (view final)) 0 (element (app h))
    else appendNew (Some (view final)) (element (app h)) in
  timers h' = 1
  /\ state (app h') = final
  /\ timers (fst (flush h')) = 0
  /\ snd (flush h')
     = [mkPass (oldNode (app h)) (Some (view final)) (calls o) (thrown o)]
  /\ element (app (fst (flush h'))) = node o
  /\ state (app (fst (flush h'))) = final
  /\ (thrown o = None ->
      oldNode (app (fst (flush h'))) = Some (view final)
      /\ skipRender (app (fst (flush h'))) = false).
Proof.
  intros Hc Hlen. cbn zeta.
  assert (Hne : actions <> []) by (destruct actions; [cbn in Hlen; lia | discriminate]).
  destruct (segment_spec actions h Hc Hne) as (Hs & Hn & Ho & He & _ & Ht).
  split; [exact Ht |]. split; [exact Hs |].
  unfold flush. rewrite Ht. cbn [runTimers].
  rewrite (runTimer_pending _ 0 Ht). cbn [fst snd app timers].
  rewrite app_nil_r. unfold render. rewrite Ho, Hn, He, Hs.
  destruct (thrown _) eqn:Hthrown; cbn [fst snd app timers element state
                                         oldNode skipRender].
  - do 4 (split; [reflexivity |]). intros Hdone. discriminate Hdone.
  - do 4 (split; [reflexivity |]). intros _. split; reflexivity.
Qed.

(** C9, as amended: a run of [render()] that completes ends with the old
    tree equal to the new tree it has just flushed and the pending flag
    cleared; a run that is ended by an exception leaves the old tree, the
    new tree and the flag as they were; [scheduleRender()] leaves the flag
    set; and over any step of the system, the flag goes from set to
    cleared, or the old tree changes, only in a step that runs a queued
    [render] to completion. *)
Theorem render_cycle_invariant :
  (forall a : App (State := State),
      passThrown (snd (render a)) = None ->
      oldNode (fst (render a)) = newNode a
      /\ newNode (fst (render a)) = newNode a
      /\ skipRender (fst (render a)) = false)
  /\ (forall (a : App (State := State)) (e : Exn),
         passThrown (snd (render a)) = Some e ->
         oldNode (fst (render a)) = oldNode a
         /\ newNode (fst (render a)) = newNode a
         /\ skipRender (fst (render a)) = skipRender a)
  /\ (forall h : Host (State := State),
         skipRender (app (scheduleRender h)) = true
         /\ (skipRender (app h) = false ->
             timers (scheduleRender h) = S (timers h)))
  /\ (forall h h' : Host,
         step view h h' ->
         (skipRender (app h) = true /\ skipRender (app h') = false)
         \/ oldNode (app h') <> oldNode (app h) ->
         0 < timers h
         /\ h' = fst (runTimer h)
         /\ passThrown (snd (render (app h))) = None
         /\ oldNode (app h') = newNode (app h)).
Proof.
  split; [| split; [| split]].
  - intros a Hdone. destruct (render_completed a Hdone) as (Ho & Hn & Hp & _).
    auto.
  - intros a e. unfold render. destruct (thrown _) eqn:Ht; cbn; [| discriminate].
    intros _. repeat split.
  - intros h. split; [apply scheduleRender_pending |].
    intros Hs. unfold scheduleRender. rewrite Hs. reflexivity.
  - intros h h' Hstep Hchange. destruct Hstep as [action h | h Hpos].
    + destruct (dispatched_spec action h) as (_ & _ & Ho & _ & Hp & _).
      destruct Hchange as [[_ Hcleared] | Hold]; congruence.
    + destruct (timers h) as [| n] eqn:Ht; [lia |].
      rewrite (runTimer_pending h n Ht) in *. cbn [fst app] in *.
      destruct (passThrown (snd (render (app h)))) as [e |] eqn:Hthrown.
      * destruct (render_thrown (app h) e Hthrown) as [Ho Hp].
        destruct Hchange as [[Hset Hcleared] | Hold]; congruence.
      * destruct (render_completed (app h) Hthrown) as (Ho & _ & _ & _).
        repeat split; [lia | exact Ho].
Qed.
End RenderCycle.

(** The counter of [index.ts] with its view mounted: two increments in
    one segment, then the queue.  The one pass reconciles the view of
    count [0] with the view of count [2]. *)
Lemma segment_makes_one_pass_witness :
  let h := fst (runTimer (construct counterView (Some (mountPoint [])) 0%Z)) in
  let h' := segment counterView [increment; increment] h in
  let final := fold_left (fun s action => action s) [increment; increment]
                         (state (app h)) in
  let o :=
    if negb (falsy (oldNode (app h)))
    then updateElement (oldNode (app h)) (Some (counterView final)) 0
           (element (app h))
    else appendNew (Some (counterView final)) (element (app h)) in
  timers h' = 1
  /\ state (app h') = final
  /\ timers (fst (flush h')) = 0
  /\ snd (flush h')
     = [mkPass (oldNode (app h)) (Some (counterView final)) (calls o) (thrown o)]
  /\ element (app (fst (flush h'))) = node o
  /\ state (app (fst (flush h'))) = final
  /\ (thrown o = None ->
      oldNode (app (fst (flush h'))) = Some (counterView final)
      /\ skipRender (app (fst (flush h'))) = false).
Proof.
  apply (segment_makes_one_pass counterView [increment; increment]
           (fst (runTimer (construct counterView (Some (mountPoint [])) 0%Z)))).
  - reflexivity.
  - cbn. lia.
Defined.

(** What that pass is, computed: the text of the paragraph is replaced. *)
Example two_increments_one_pass :
  let h := fst (runTimer (construct counterView (Some (mountPoint [])) 0%Z)) in
  let h' := segment counterView [increment; increment] h in
  snd (flush h')
  = [mkPass (Some (counterView 0)) (Some (counterView 2))
       [OnChild 0 (OnChild 0 (ReplaceChild (Text "2" None) 0));
        OnChild 0 (OnChild 0 (OnDetached 0 (SetValue None)))]
       None]
  /\ element (app (fst (flush h'))) = Some (mountPoint [nativeCounter "2"]).
Proof. split; reflexivity. Qed.

(** C6, the input at which the claim fails.  A list of three items is
    mounted; one action leaves one item, and the pass for it is ended by a
    [TypeError] (the second [removeChild] finds no node at index [2]), so
    that the flag stays set with no callback queued.  The two actions
    dispatched afterwards in one segment queue no callback: no pass is
    run, and the mount point is not touched. *)
Lemma dispatches_after_thrown_render_make_no_pass :
  let h0 := construct listView (Some (mountPoint [])) 3 in
  let h1 := fst (runTimer h0) in
  let h2 := dispatched listView (fun _ => 1) h1 in
  let h3 := fst (runTimer h2) in
  let h4 := segment listView [fun _ => 2; fun _ => 4] h3 in
  step listView h0 h1 /\ step listView h1 h2 /\ step listView h2 h3
  /\ map passThrown (snd (runTimer h2)) = [Some TypeError]
  /\ state (app h4) = 4
  /\ timers h4 = 0
  /\ snd (flush h4) = []
  /\ element (app (fst (flush h4))) = element (app h3).
Proof.
  cbn zeta. split; [| split; [| split]].
  - apply step_timer. cbn. lia.
  - apply step_dispatch.
  - apply step_timer. cbn. lia.
  - repeat split.
Qed.

Lemma render_cycle_invariant_witness :
  let h := construct counterView (Some (mountPoint [])) 0%Z in
  (oldNode (fst (render (app h))) = newNode (app h)
   /\ newNode (fst (render (app h))) = newNode (app h)
   /\ skipRender (fst (render (app h))) = false)
  /\ (0 < timers h
      /\ fst (runTimer h) = fst (runTimer h)
      /\ passThrown (snd (render (app h))) = None
      /\ oldNode (app (fst (runTimer h))) = newNode (app h)).
Proof.
  cbn zeta. split.
  - apply (proj1 (render_cycle_invariant counterView)). reflexivity.
  - apply (proj2 (proj2 (proj2 (render_cycle_invariant counterView)))
             (construct counterView (Some (mountPoint [])) 0%Z)
             (fst (runTimer (construct counterView (Some (mountPoint [])) 0%Z)))).
    + apply step_timer. cbn. lia.
    + left. split; reflexivity.
Defined.

(** C9, the input at which the claim fails.  The pass that takes the
    mounted list from three items to one is ended by a [TypeError]: this
    execution of [render()] ends with the flag still set and with the old
    tree still the list of three, not the new tree it was given. *)
Lemma render_that_throws_keeps_flag_and_old_tree :
  let h0 := construct listView (Some (mountPoint [])) 3 in
  let h1 := fst (runTimer h0) in
  let h2 := dispatched listView (fun _ => 1) h1 in
  let a := fst (render (app h2)) in
  step listView h0 h1 /\ step listView h1 h2
  /\ passThrown (snd (render (app h2))) = Some TypeError
  /\ skipRender a = true
  /\ oldNode a = Some (listView 3)
  /\ newNode a = Some (listView 1)
  /\ oldNode a <> newNode a.
Proof.
  cbn zeta. split; [| split].
  - apply step_timer. cbn. lia.
  - apply step_dispatch.
  - repeat split. vm_compute. discriminate.
Qed.

(** Scenario A: the first pass mounts the view of count [0]; one
    increment later, the next pass replaces the text node of the
    paragraph (and assigns [value] on the node it took out); the button is
    left alone. *)
Example counter_increment_pass :
  let h1 := fst (runTimer (construct counterView (Some (mountPoint [])) 0%Z)) in
  let h2 := dispatched counterView increment h1 in
  element (app h1) = Some (mountPoint [nativeCounter "0"])
  /\ map passCalls (snd (flush h2))
     = [[OnChild 0 (OnChild 0 (ReplaceChild (Text "1" None) 0));
         OnChild 0 (OnChild 0 (OnDetached 0 (SetValue None)))]]
  /\ element (app (fst (flush h2)))
     = Some (mountPoint [nativeCounter "1"]).
Proof. repeat split. Qed.

(** * Further properties of the code *)

(** ** 21. When [createElement] throws *)

Lemma setAttributesLoop_completion attributes target :
  match setAttributesLoop attributes target with
  | Return _ => forallb listenerIsFunction attributes = true
  | Throw e => e = TypeError /\ forallb listenerIsFunction attributes = false
  end.
Proof.
  revert target. induction attributes as [| [k w] rest IH]; intros target.
  - reflexivity.
  - cbn [setAttributesLoop forallb]. unfold listenerIsFunction at 1 3.
    cbn [fst snd]. destruct (isEventAttr k); cbn [negb orb].
    + destruct w as [s | f]; cbn [addEventListener andb].
      * split; reflexivity.
      * apply IH.
    + apply IH.
Qed.

Lemma appendChildren_completion children element :
  Forall (fun c => match createElement c with
                   | Return _ => mountable c = true
                   | Throw e => e = TypeError /\ mountable c = false
                   end) children ->
  match appendChildren children element with
  | Return _ => forallb mountable children = true
  | Throw e => e = TypeError /\ forallb mountable children = false
  end.
Proof.
  intros H. revert element. induction H as [| c rest Hc _ IH]; intros element.
  - reflexivity.
  - cbn [appendChildren forallb]. destruct (createElement c) as [d | e].
    + rewrite Hc. cbn [andb]. fold appendChildren. apply IH.
    + destruct Hc as [-> ->]. split; reflexivity.
Qed.

(** X1: for a tree whose tags and attribute names are names the DOM
    stores as given, [createElement] returns a native tree exactly when
    every property under an event name, anywhere in the tree, holds a
    function; when one holds a string it throws, and what it throws is a
    [TypeError]. *)
Theorem createElement_returns_iff_listeners_are_functions (n : NodeType) :
  plainNames n = true ->
  match createElement n with
  | Return _ => mountable n = true
  | Throw e => e = TypeError /\ mountable n = false
  end.
Proof.
  intros _.
  induction n as [tag attributes children IH | s | z] using NodeType_ind'.
  - change (createElement (VNode tag attributes children))
      with (match setAttributes (document_createElement tag) attributes with
            | Throw e => Throw e
            | Return element => appendChildren children element
            end).
    cbn [mountable]. unfold setAttributes.
    destruct attributes as [attrs |]; cbn [properties].
    + pose proof (setAttributesLoop_completion attrs (document_createElement tag))
        as Hattrs.
      destruct (setAttributesLoop attrs (document_createElement tag)) as [e | x].
      * rewrite Hattrs. cbn [andb]. apply appendChildren_completion, IH.
      * destruct Hattrs as [-> ->]. split; reflexivity.
    + cbn [forallb andb]. apply appendChildren_completion, IH.
  - reflexivity.
  - reflexivity.
Qed.

Lemma createElement_returns_iff_listeners_are_functions_witness :
  match createElement
          (h "div" None
             [h "button"
                (Some [("type", AString "button"); ("onclick", AString "count()")])
                [JString "count up"]]) with
  | Return _ =>
      mountable
        (h "div" None
           [h "button"
              (Some [("type", AString "button"); ("onclick", AString "count()")])
              [JString "count up"]]) = true
  | Throw e =>
      e = TypeError
      /\ mountable
           (h "div" None
              [h "button"
                 (Some [("type", AString "button");
                        ("onclick", AString "count()")])
                 [JString "count up"]]) = false
  end.
Proof.
  apply (createElement_returns_iff_listeners_are_functions
           (h "div" None
              [h "button"
                 (Some [("type", AString "button");
                        ("onclick", AString "count()")])
                 [JString "count up"]])).
  reflexivity.
Defined.

(** ** 22. What an update leaves alone *)

Lemma withChildNodes_same (p : DOMNode) : withChildNodes p (childNodesOf p) = p.
Proof. destruct p; reflexivity. Qed.

Lemma framed_same index parent calls thrown :
  framed index parent (mkOutcome (Some parent) calls thrown).
Proof.
  exists (childNodesOf parent). cbn [node]. rewrite withChildNodes_same.
  repeat split.
Qed.

Lemma framed_insert index parent d calls thrown :
  framed index parent
    (mkOutcome (Some (withChildNodes parent (<[index := d]> (childNodesOf parent))))
               calls thrown).
Proof.
  exists (<[index := d]> (childNodesOf parent)). cbn [node].
  split; [reflexivity |]. split; [apply length_insert |].
  intros j Hj. apply list_lookup_insert_ne. congruence.
Qed.

Lemma framed_onChild index parent (m : Effect) :
  framed index parent (onChild index m (Some parent)).
Proof.
  unfold onChild. destruct (childAt index (Some parent)) as [t |].
  - destruct (node (m (Some t))) as [t' |].
    + apply framed_insert.
    + apply framed_same.
  - apply framed_same.
Qed.

Lemma framed_replacement index parent newNode target v :
  framed index parent
    ((withResult (createElementOf newNode)
        (fun fresh => replaceChildE fresh index) ;;
      onDetached index target (updateValue v)) (Some parent)).
Proof.
  unfold andThen, withResult.
  destruct (createElementOf newNode) as [fresh | e]; [| apply framed_same].
  unfold replaceChildE, throw.
  destruct (childAt index (Some parent)); [| apply framed_same].
  cbn [thrown node calls]. unfold onDetached. cbn [node]. apply framed_insert.
Qed.

(** X2: an update of position [index] with an [oldNode] that is not
    [undefined] and a [newNode] that is not falsy changes nothing of the
    receiver but its child at [index]: the receiver keeps its tag,
    attributes, listeners and [value], the number of its children, and
    every other child, whether the update completes or throws. *)
Theorem update_keeps_other_children
    (oldNode : NodeType) (newNode : option NodeType) (index : nat)
    (parent : DOMNode) :
  falsy newNode = false ->
  exists cs',
    node (updateElement (Some oldNode) newNode index (Some parent))
    = Some (withChildNodes parent cs')
    /\ length cs' = length (childNodesOf parent)
    /\ forall j, j <> index -> cs' !! j = childNodesOf parent !! j.
Proof.
  intros Htruthy.
  change (framed index parent
            (updateElement (Some oldNode) newNode index (Some parent))).
  open_update. rewrite Htruthy.
  destruct (detectVirtualDOMDifference (Some oldNode) newNode) as [[] | e];
    cbn [withResult];
    try apply framed_replacement;
    try apply framed_onChild;
    try apply framed_same.
  destruct (isVNode (Some oldNode) && isVNode newNode).
  - apply framed_onChild.
  - apply framed_same.
Qed.

Lemma update_keeps_other_children_witness :
  exists cs',
    node (updateElement (Some (boxWith "a" "x")) (Some (bare "span")) 1
            (Some (mountPoint [nativeBare "p"; nativeBox "a" "x"])))
    = Some (withChildNodes (mountPoint [nativeBare "p"; nativeBox "a" "x"]) cs')
    /\ length cs'
       = length (childNodesOf (mountPoint [nativeBare "p"; nativeBox "a" "x"]))
    /\ forall j, j <> 1 ->
         cs' !! j = childNodesOf (mountPoint [nativeBare "p"; nativeBox "a" "x"]) !! j.
Proof.
  apply (update_keeps_other_children (boxWith "a" "x") (Some (bare "span")) 1
           (mountPoint [nativeBare "p"; nativeBox "a" "x"])).
  reflexivity.
Defined.

(** ** 23. The attributes after [updateAttributes] *)

Lemma dropAttribute_keys name attrs k :
  k ∈ map fst (dropAttribute name attrs) <-> k ∈ map fst attrs /\ k <> name.
Proof.
  induction attrs as [| [k' w] rest IH].
  - cbn. split; [intros H; apply elem_of_nil in H; contradiction | intros [H _]].
    apply elem_of_nil in H. contradiction.
  - cbn [dropAttribute]. destruct (String.eqb k' name) eqn:Hk.
    + apply String.eqb_eq in Hk. subst k'. rewrite IH. cbn [map fst].
      rewrite elem_of_cons. split.
      * intros [Hin Hne]. split; [right; exact Hin | exact Hne].
      * intros [[Heq | Hin] Hne]; [contradiction | split; assumption].
    + apply String.eqb_neq in Hk. cbn [map fst]. rewrite !elem_of_cons, IH.
      split.
      * intros [Heq | [Hin Hne]].
        -- subst k. split; [left; reflexivity | exact Hk].
        -- split; [right; exact Hin | exact Hne].
      * intros [[Heq | Hin] Hne]; [left; exact Heq | right; split; assumption].
Qed.

Lemma dropAll_keys names attrs k :
  k ∈ map fst (dropAll names attrs) <-> k ∈ map fst attrs /\ k ∉ map fst names.
Proof.
  unfold dropAll. revert attrs. induction names as [| [n w] rest IH]; intros attrs.
  - cbn. split; [intros H; split; [exact H | apply not_elem_of_nil] | tauto].
  - cbn [fold_left fst]. rewrite IH, dropAttribute_keys. cbn [map fst].
    rewrite not_elem_of_cons. tauto.
Qed.

Lemma dropAll_covered names attrs :
  (forall k, k ∈ map fst attrs -> k ∈ map fst names) -> dropAll names attrs = [].
Proof.
  intros Hcovered.
  destruct (dropAll names attrs) as [| [k w] rest] eqn:Hd; [reflexivity |].
  assert (Hk : k ∈ map fst (dropAll names attrs)).
  { rewrite Hd. cbn. apply list_elem_of_here. }
  apply dropAll_keys in Hk as [Hin Hout]. exfalso. apply Hout, Hcovered, Hin.
Qed.

Lemma putAll_fresh news attrs :
  NoDup (map fst news) ->
  (forall k, k ∈ map fst news -> k ∉ map fst attrs) ->
  putAll news attrs = attrs ++ news.
Proof.
  unfold putAll. revert attrs.
  induction news as [| [k w] rest IH]; intros attrs Hnodup Hfresh.
  - cbn. rewrite app_nil_r. reflexivity.
  - cbn [map fst] in Hnodup. apply NoDup_cons in Hnodup as [Hk Hrest].
    cbn [fold_left fst snd].
    rewrite putAttribute_fresh by (apply Hfresh; cbn; apply list_elem_of_here).
    rewrite IH; [rewrite <- app_assoc; reflexivity | exact Hrest |].
    intros k' Hk'. rewrite map_app. cbn [map fst].
    apply not_elem_of_app. split.
    + apply Hfresh. cbn. apply list_elem_of_further, Hk'.
    + intros Hin. apply list_elem_of_singleton in Hin. subst k'. contradiction.
Qed.

Lemma NoDup_plain_keys attributes :
  NoDup (map fst (properties attributes)) ->
  NoDup (map fst (plainAttributes attributes)).
Proof.
  unfold plainAttributes. generalize (properties attributes) as l.
  induction l as [| [k w] rest IH]; intros Hnodup.
  - constructor.
  - cbn [map fst] in Hnodup. apply NoDup_cons in Hnodup as [Hk Hrest].
    rewrite filter_cons. destruct (decide _) as [Hplain | Hevent].
    + cbn [map fst]. apply NoDup_cons. split; [| apply IH, Hrest].
      intros Hin. apply Hk. apply list_elem_of_fmap in Hin as (kv & -> & Hkv).
      apply list_elem_of_filter in Hkv as [_ Hkv].
      apply list_elem_of_fmap_2. exact Hkv.
    + apply IH, Hrest.
Qed.

(** X3: take two attribute mappings whose names that are not events are
    names the DOM stores as given, the new one with each key once and with
    strings under those names.  When the attributes of the native element
    are among the old non-event attributes, as they are on a node
    [createElement] built from the old tree, [updateAttributes] leaves the
    element with exactly the non-event attributes of the new mapping, in
    the order of the new mapping: an attribute the new mapping lacks is
    gone, one it keeps has the new value. *)
Theorem updateAttributes_gives_new_attributes
    (oldAttributes newAttributes : option Attributes)
    (tag : string) (a l : list (string * AttributeValue))
    (v : option JSValue) (cs : list DOMNode) :
  forallb (fun kv => domName (fst kv)) (plainAttributes oldAttributes) = true ->
  forallb (fun kv => domName (fst kv)) (plainAttributes newAttributes) = true ->
  forallb wellKinded (plainAttributes newAttributes) = true ->
  NoDup (map fst (properties newAttributes)) ->
  (forall k, k ∈ map fst a -> k ∈ map fst (plainAttributes oldAttributes)) ->
  updateAttributes oldAttributes newAttributes (Some (Element tag a l v cs))
  = mkOutcome (Some (Element tag (plainAttributes newAttributes) l v cs))
              (removals oldAttributes ++ settings newAttributes) None.
Proof.
  intros _ _ _ Hnodup Hcovered. rewrite updateAttributes_element.
  rewrite (dropAll_covered _ a Hcovered).
  rewrite putAll_fresh.
  - reflexivity.
  - apply NoDup_plain_keys, Hnodup.
  - intros k _. apply not_elem_of_nil.
Qed.

Lemma updateAttributes_gives_new_attributes_witness :
  updateAttributes
    (Some [("class", AString "a"); ("title", AString "t"); ("onclick", AFunction 1)])
    (Some [("id", AString "i"); ("class", AString "b"); ("onclick", AFunction 2)])
    (Some (Element "div" [("class", AString "a"); ("title", AString "t")]
             [("click", AFunction 1)] None []))
  = mkOutcome
      (Some (Element "div"
               (plainAttributes
                  (Some [("id", AString "i"); ("class", AString "b");
                         ("onclick", AFunction 2)]))
               [("click", AFunction 1)] None []))
      (removals (Some [("class", AString "a"); ("title", AString "t");
                       ("onclick", AFunction 1)])
       ++ settings (Some [("id", AString "i"); ("class", AString "b");
                          ("onclick", AFunction 2)]))
      None.
Proof.
  apply (updateAttributes_gives_new_attributes
           (Some [("class", AString "a"); ("title", AString "t");
                  ("onclick", AFunction 1)])
           (Some [("id", AString "i"); ("class", AString "b");
                  ("onclick", AFunction 2)])
           "div" [("class", AString "a"); ("title", AString "t")]
           [("click", AFunction 1)] None []).
  - reflexivity.
  - reflexivity.
  - reflexivity.
  - apply (bool_decide_eq_true_1 _). reflexivity.
  - intros k Hk. exact Hk.
Defined.

(** ** 24. After a pass that throws *)

Section StuckFlag.
Context {State : Type}.
Variable view : State -> NodeType.



End StuckFlag.


(** ** 25. Handlers and reconciliation *)

Lemma renameHandler_key g kv : fst (renameHandler g kv) = fst kv.
Proof.
  unfold renameHandler. destruct (isEventAttr (fst kv)); [| reflexivity].
  destruct (snd kv); reflexivity.
Qed.

Lemma getProperty_value_renamed g attrs :
  getProperty "value" (map (renameHandler g) attrs) = getProperty "value" attrs.
Proof.
  induction attrs as [| [k w] rest IH]; [reflexivity |].
  cbn [map getProperty].
  destruct (renameHandler g (k, w)) as [k' w'] eqn:Hr.
  assert (Hk : k' = k).
  { pose proof (renameHandler_key g (k, w)) as H. rewrite Hr in H. exact H. }
  subst k'. destruct (String.eqb k "value") eqn:Hv.
  - apply String.eqb_eq in Hv. subst k. vm_compute in Hr. congruence.
  - exact IH.
Qed.

Lemma jsonMembers_renamed g attrs :
  jsonMembers (map (renameHandler g) attrs) = jsonMembers attrs.
Proof.
  induction attrs as [| [k w] rest IH]; [reflexivity |].
  cbn [map]. unfold renameHandler at 1. cbn [fst snd].
  destruct (isEventAttr k), w as [s | f]; cbn [jsonMembers];
    rewrite IH; reflexivity.
Qed.

Lemma detect_rehandled g (T : NodeType) :
  falsy (Some T) = false ->
  detectVirtualDOMDifference (Some T) (Some (rehandle g T)) = Return CT_None.
Proof.
  intros Htruthy.
  destruct T as [tag attributes children | s | z];
    [| apply detect_same_truthy, Htruthy ..].
  cbn [rehandle]. rewrite detect_vnodes.
  rewrite bool_decide_eq_true_2 by reflexivity. cbn [negb].
  destruct attributes as [attrs |]; cbn [option_map valueOf JSON_stringify].
  - rewrite getProperty_value_renamed, jsonMembers_renamed.
    rewrite !bool_decide_eq_true_2 by reflexivity. reflexivity.
  - rewrite !bool_decide_eq_true_2 by reflexivity. reflexivity.
Qed.

(** A child loop over two lists of the same length is quiet when the
    update of every pair is. *)
Lemma quiet_childLoop_pairs (olds news : list NodeType) :
  length olds = length news ->
  (forall i o n, olds !! i = Some o -> news !! i = Some n ->
                 forall index r, quiet (updateElement (Some o) (Some n) index r) r) ->
  forall k i r, quiet (childLoop k i olds news r) r.
Proof.
  intros Hlen Hpairs k. induction k as [| k IH]; intros i r.
  - split; reflexivity.
  - cbn [childLoop]. apply quiet_andThen; [| intros r'; apply IH].
    destruct (olds !! i) as [o |] eqn:Ho.
    + destruct (news !! i) as [n |] eqn:Hn.
      * apply (Hpairs i o n Ho Hn).
      * apply lookup_lt_Some in Ho. apply lookup_ge_None in Hn. lia.
    + destruct (news !! i) as [n |] eqn:Hn.
      * apply lookup_lt_Some in Hn. apply lookup_ge_None in Ho. lia.
      * split; reflexivity.
Qed.

(** X5: reconciliation does not see the functions under the event names.
    When the new tree is the old tree with other handlers, and no node of
    it is falsy (the number [0], [-0] or [NaN], or the empty string), the
    pass makes no native call and leaves the native tree as it was: the
    listeners registered when the nodes were built stay, the new handlers
    are never registered. *)
Theorem changed_handlers_are_not_applied (g : nat -> nat) (T : NodeType) :
  truthyTree T = true ->
  forall (index : nat) (parent : Ref),
    calls (updateElement (Some T) (Some (rehandle g T)) index parent) = []
    /\ node (updateElement (Some T) (Some (rehandle g T)) index parent) = parent.
Proof.
  induction T as [tag attributes children IH | s | z] using NodeType_ind';
    intros Htruthy index parent;
    unfold updateElement; rewrite updateDefined_eq; unfold updateWith;
    (apply quiet_andThen;
     [destruct parent; split; reflexivity | intros r]).
  - replace (falsy (Some (rehandle g (VNode tag attributes children))))
      with false by reflexivity.
    rewrite detect_rehandled by reflexivity. cbn [withResult].
    replace (isVNode (Some (VNode tag attributes children))
             && isVNode (Some (rehandle g (VNode tag attributes children))))
      with true by reflexivity.
    apply quiet_onChild. intros r'. unfold updateChildren.
    cbn [childrenOf rehandle].
    apply quiet_childLoop_pairs; [rewrite length_map; reflexivity |].
    intros i o n Ho Hn index' r''.
    rewrite list_lookup_fmap, Ho in Hn. injection Hn as <-.
    rewrite Forall_forall in IH. apply IH.
    + eapply list_elem_of_lookup_2, Ho.
    + cbn in Htruthy. rewrite forallb_forall in Htruthy. apply Htruthy.
      apply list_elem_of_In. eapply list_elem_of_lookup_2, Ho.
  - cbn [truthyTree] in Htruthy. apply andb_true_iff in Htruthy as [Hs _].
    apply negb_true_iff in Hs. cbn [rehandle].
    rewrite Hs, detect_same_truthy by exact Hs. split; reflexivity.
  - cbn [truthyTree] in Htruthy. apply andb_true_iff in Htruthy as [Hz _].
    apply negb_true_iff in Hz. cbn [rehandle].
    rewrite Hz, detect_same_truthy by exact Hz. split; reflexivity.
Qed.

Lemma changed_handlers_are_not_applied_witness :
  calls (updateElement (Some (counterView 1)) (Some (rehandle S (counterView 1))) 0
           (Some (mountPoint [nativeCounter "1"])))
  = []
  /\ node (updateElement (Some (counterView 1)) (Some (rehandle S (counterView 1))) 0
             (Some (mountPoint [nativeCounter "1"])))
     = Some (mountPoint [nativeCounter "1"]).
Proof.
  apply (changed_handlers_are_not_applied S (counterView 1)). reflexivity.
Defined.

(** ** 26. The native tree after a pass *)

Lemma clean_unfold oldNode newNode :
  clean oldNode newNode
  = negb (falsy (Some newNode))
    && match detectVirtualDOMDifference (Some oldNode) (Some newNode) with
       | Return CT_Type | Return CT_Text | Return CT_Node => true
       | Return CT_None =>
           match oldNode with
           | VNode _ oldAttributes olds =>
               bool_decide (plainAttributes oldAttributes
                            = plainAttributes (attributesOf (Some newNode)))
               && cleanChildren olds (childrenOf (Some newNode))
           | _ => true
           end
       | _ => false
       end.
Proof. destruct oldNode; reflexivity. Qed.

Lemma setAttributesLoop_shape attributes tag a l v cs e :
  setAttributesLoop attributes (Element tag a l v cs) = Return e ->
  exists l', e = Element tag (putAll (plainAttributes (Some attributes)) a) l' v cs.
Proof.
  unfold plainAttributes, putAll. cbn [properties].
  revert a l. induction attributes as [| [k w] rest IH]; intros a l Hreturn.
  - injection Hreturn as <-. exists l. reflexivity.
  - cbn [setAttributesLoop] in Hreturn. destruct (isEventAttr k) eqn:Hev.
    + rewrite filter_cons_False by (cbn [fst]; congruence).
      destruct w as [s | f]; cbn [addEventListener] in Hreturn;
        [discriminate Hreturn |].
      destruct (bool_decide _) in Hreturn; apply IH in Hreturn; exact Hreturn.
    + rewrite filter_cons_True by (cbn [fst]; congruence).
      cbn [setAttribute] in Hreturn. apply IH in Hreturn. exact Hreturn.
Qed.

Lemma appendChildren_shape children tag a l v ds d :
  appendChildren children (Element tag a l v ds) = Return d ->
  exists bs, created children bs /\ d = Element tag a l v (ds ++ bs).
Proof.
  revert ds. induction children as [| c rest IH]; intros ds Hreturn.
  - injection Hreturn as <-. exists []. split; [constructor |].
    rewrite app_nil_r. reflexivity.
  - cbn [appendChildren] in Hreturn. fold appendChildren in Hreturn.
    destruct (createElement c) as [b | e] eqn:Hb; [| discriminate Hreturn].
    unfold appendChild in Hreturn. cbn [withChildNodes childNodesOf] in Hreturn.
    apply IH in Hreturn as (bs & Hbs & ->).
    exists (b :: bs). split; [constructor; assumption |].
    rewrite <- app_assoc. reflexivity.
Qed.

(** What [createElement] returns for an element. *)
Lemma createElement_shape tag attributes children d :
  createElement (VNode tag attributes children) = Return d ->
  exists l bs,
    created children bs
    /\ d = Element tag (putAll (plainAttributes attributes) []) l None bs.
Proof.
  change (createElement (VNode tag attributes children))
    with (match setAttributes (document_createElement tag) attributes with
          | Throw e => Throw e
          | Return element => appendChildren children element
          end).
  unfold setAttributes, document_createElement.
  destruct attributes as [attrs |].
  - destruct (setAttributesLoop attrs (Element tag [] [] None [])) as [e | x] eqn:He;
      [| discriminate].
    apply setAttributesLoop_shape in He as (l & ->). intros Hreturn.
    apply appendChildren_shape in Hreturn as (bs & Hbs & ->).
    exists l, bs. split; [exact Hbs | reflexivity].
  - intros Hreturn. apply appendChildren_shape in Hreturn as (bs & Hbs & ->).
    exists [], bs. split; [exact Hbs | reflexivity].
Qed.

Lemma insert_after_prefix {A} (pre : list A) (x y : A) (rest : list A) (i : nat) :
  length pre = i -> <[i := x]> (pre ++ y :: rest) = pre ++ x :: rest.
Proof.
  intros <-. rewrite insert_app_r_alt by lia. rewrite Nat.sub_diag. reflexivity.
Qed.

Lemma delete_after_prefix {A} (pre : list A) (y : A) (rest : list A) (i : nat) :
  length pre = i -> delete i (pre ++ y :: rest) = pre ++ rest.
Proof. intros <-. apply delete_middle. Qed.

(** Past the end of the old children the loop appends what
    [createElement] builds, in order. *)
Lemma childLoop_appends news bn i allOlds allNews tag a l v ds :
  created news bn ->
  (forall j, allOlds !! (i + j) = None) ->
  (forall j, allNews !! (i + j) = news !! j) ->
  childLoop (length news) i allOlds allNews (Some (Element tag a l v ds))
  = mkOutcome (Some (Element tag a l v (ds ++ bn))) (map AppendChild bn) None.
Proof.
  intros Hcreated. revert i ds.
  induction Hcreated as [| n b news' bn' Hb _ IH]; intros i ds Holds Hnews.
  - cbn. rewrite app_nil_r. reflexivity.
  - cbn [length childLoop].
    specialize (Holds 0) as Ho. specialize (Hnews 0) as Hn.
    rewrite Nat.add_0_r in Ho, Hn. rewrite Ho, Hn. cbn [lookup list_lookup].
    unfold updateElement, appendNew. cbn [createElementOf]. rewrite Hb.
    cbn [withResult]. unfold andThen. cbn [appendChildE thrown node calls].
    unfold appendChild. cbn [withChildNodes childNodesOf].
    rewrite (IH (S i) (ds ++ [b])).
    + cbn [node calls thrown]. rewrite <- app_assoc. reflexivity.
    + intros j. replace (S i + j) with (i + S j) by lia. apply Holds.
    + intros j. replace (S i + j) with (i + S j) by lia. apply Hnews.
Qed.

Lemma map_readBack_cons ds b bs :
  map readBack ds = readBack b :: map readBack bs ->
  exists d ds', ds = d :: ds' /\ readBack d = readBack b
                /\ map readBack ds' = map readBack bs.
Proof.
  destruct ds as [| d ds']; cbn [map]; intros H; [discriminate H |].
  injection H as Hd Hrest. exists d, ds'. repeat split; assumption.
Qed.

(** The loop over the children of a kept position, on a native element
    whose children from [i] on show what the old children build. *)
Lemma clean_loop tag a l v olds :
  Forall (fun o =>
            forall new index parent dcur fresh,
              clean o new = true -> inSync dcur o ->
              createElement new = Return fresh ->
              childNodesOf parent !! index = Some dcur ->
              synced index parent fresh
                (updateElement (Some o) (Some new) index (Some parent))) olds ->
  forall news i pre ds bo bn allOlds allNews,
    cleanChildren olds news = true ->
    created olds bo -> created news bn ->
    map readBack ds = map readBack bo ->
    length pre = i ->
    (forall j, allOlds !! (i + j) = olds !! j) ->
    (forall j, allNews !! (i + j) = news !! j) ->
    exists ds',
      node (childLoop (max (length news) (length olds)) i allOlds allNews
              (Some (Element tag a l v (pre ++ ds))))
      = Some (Element tag a l v (pre ++ ds'))
      /\ thrown (childLoop (max (length news) (length olds)) i allOlds allNews
                   (Some (Element tag a l v (pre ++ ds)))) = None
      /\ map readBack ds' = map readBack bn.
Proof.
  induction 1 as [| o olds' Po _ IH];
    intros news i pre ds bo bn allOlds allNews Hclean Hbo Hbn Hds Hpre Holds Hnews;
    subst i.
  - inversion Hbo; subst. destruct ds; [| discriminate Hds].
    cbn [length]. rewrite Nat.max_0_r.
    rewrite (childLoop_appends news bn (length pre) allOlds allNews
               tag a l v (pre ++ []) Hbn) by assumption.
    exists bn. cbn [node thrown]. rewrite app_nil_r. repeat split.
  - inversion Hbo as [| o0 b olds0 bo' Hb Hbo' ]; subst.
    cbn [map] in Hds.
    apply map_readBack_cons in Hds as (dc & ds' & -> & Hdc & Hds').
    specialize (Holds 0) as Ho. specialize (Hnews 0) as Hn.
    rewrite Nat.add_0_r in Ho, Hn. cbn [lookup list_lookup] in Ho.
    destruct news as [| n news'].
    + (* the new list has ended: the old child is removed *)
      destruct olds' as [| o' olds'']; [| discriminate Hclean].
      inversion Hbo'; subst. destruct ds'; [| discriminate Hds'].
      inversion Hbn; subst. rewrite lookup_nil in Hn.
      cbn [length Nat.max childLoop]. rewrite Ho, Hn.
      exists []. rewrite app_nil_r.
      unfold andThen. open_update. cbn [falsy].
      unfold removeChildE, childAt. cbn [childNodesOf].
      rewrite (list_lookup_middle pre [] dc (length pre)) by reflexivity.
      cbn [thrown node calls withChildNodes childNodesOf skip].
      rewrite (delete_after_prefix pre dc [] (length pre) eq_refl).
      rewrite app_nil_r. repeat split.
    + inversion Hbn as [| n0 b' news0 bn' Hb' Hbn']; subst.
      cbn [cleanChildren] in Hclean. fold cleanChildren in Hclean.
      apply andb_true_iff in Hclean as [Hon Hrest].
      replace (max (length (n :: news')) (length (o :: olds')))
        with (S (max (length news') (length olds'))) by (cbn; lia).
      cbn [childLoop]. rewrite Ho, Hn. cbn [lookup list_lookup].
      destruct (Po n (length pre) (Element tag a l v (pre ++ dc :: ds')) dc b' Hon)
        as (d & Hnode & Hthrown & Hd).
      { exists b. split; assumption. }
      { exact Hb'. }
      { cbn [childNodesOf]. apply list_lookup_middle. reflexivity. }
      cbn [withChildNodes childNodesOf] in Hnode.
      rewrite (insert_after_prefix pre d dc ds' (length pre) eq_refl) in Hnode.
      unfold andThen. rewrite Hthrown, Hnode. cbn [node thrown].
      destruct (IH news' (S (length pre)) (pre ++ [d]) ds' bo' bn' allOlds allNews)
        as (ds'' & Hnode' & Hthrown' & Hds''); try assumption.
      { rewrite length_app. cbn. lia. }
      { intros j. replace (S (length pre) + j) with (length pre + S j) by lia.
        apply Holds. }
      { intros j. replace (S (length pre) + j) with (length pre + S j) by lia.
        apply Hnews. }
      exists (d :: ds'').
      rewrite (cons_middle d pre ds'), (cons_middle d pre ds''), !app_assoc.
      rewrite Hnode', Hthrown'.
      split; [reflexivity |]. split; [reflexivity |].
      cbn [map]. rewrite Hd, Hds''. reflexivity.
Qed.

(** Two numbers that are equal print the same: they are the same number,
    or the two zeros. *)
Lemma SFeqb_toString (x y : Number) :
  SFeqb x y = true -> numberToString x = numberToString y.
Proof.
  unfold SFeqb.
  destruct x as [sx | sx | | sx mx ex], y as [sy | sy | | sy my ey];
    cbn [SFcompare]; try discriminate; try reflexivity;
    try (destruct sx; discriminate); try (destruct sy; discriminate);
    try (destruct sx, sy; try discriminate; reflexivity).
  destruct sx, sy; try discriminate;
    destruct (Z.compare_spec ex ey) as [-> | |]; try discriminate;
    change (Pos.compare_cont Eq mx my) with (Pos.compare mx my);
    destruct (Pos.compare_spec mx my) as [-> | |]; try discriminate;
    reflexivity.
Qed.

(** Two leaves between which no difference is detected have the same
    text. *)
Lemma detect_none_leaf oldNode newNode :
  isVNode (Some oldNode) = false ->
  detectVirtualDOMDifference (Some oldNode) (Some newNode) = Return CT_None ->
  createElement newNode = createElement oldNode.
Proof.
  destruct oldNode as [t1 a1 cs1 | s1 | n1]; intros Hleaf; [discriminate Hleaf | |];
    destruct newNode as [t2 a2 cs2 | s2 | n2]; intros Hd; try discriminate Hd;
    unfold detectVirtualDOMDifference in Hd; rewrite Hleaf in Hd;
    cbn [typeof strictlyEqual negb andb] in Hd;
    rewrite bool_decide_eq_true_2 in Hd by reflexivity; cbn [negb] in Hd.
  - destruct (bool_decide (s1 = s2)) eqn:He; [| discriminate Hd].
    apply bool_decide_eq_true_1 in He. congruence.
  - destruct (SFeqb n1 n2) eqn:He; [| discriminate Hd].
    cbn [createElement toString]. rewrite (SFeqb_toString n1 n2 He).
    reflexivity.
Qed.

Lemma detect_none_vnode tag attributes children newNode :
  detectVirtualDOMDifference (Some (VNode tag attributes children)) (Some newNode)
  = Return CT_None ->
  exists attributes' children', newNode = VNode tag attributes' children'.
Proof.
  destruct newNode as [t2 a2 cs2 | s2 | n2]; intros Hd; try discriminate Hd.
  rewrite detect_vnodes in Hd. case_bool_decide; [| discriminate Hd].
  subst t2. exists a2, cs2. reflexivity.
Qed.

Lemma replaced_synced oldNode newNode index parent dcur fresh c :
  falsy (Some newNode) = false ->
  detectVirtualDOMDifference (Some oldNode) (Some newNode) = Return c ->
  c = CT_Type \/ c = CT_Text \/ c = CT_Node ->
  createElement newNode = Return fresh ->
  childNodesOf parent !! index = Some dcur ->
  synced index parent fresh
    (updateElement (Some oldNode) (Some newNode) index (Some parent)).
Proof.
  intros Htruthy Hd Hc Hfresh Htarget. exists fresh.
  open_update. rewrite Htruthy, Hd.
  destruct Hc as [-> | [-> | ->]];
    cbn [withResult createElementOf]; rewrite Hfresh; cbn [withResult];
    unfold replaceChildE, onDetached, updateValue, childAt;
    rewrite Htarget; repeat split.
Qed.

(** The update of a clean change on a native node that shows the old
    tree. *)
Lemma clean_update oldNode :
  forall newNode index parent dcur fresh,
    clean oldNode newNode = true ->
    inSync dcur oldNode ->
    createElement newNode = Return fresh ->
    childNodesOf parent !! index = Some dcur ->
    synced index parent fresh
      (updateElement (Some oldNode) (Some newNode) index (Some parent)).
Proof.
  induction oldNode as [tag attributes olds IH | s | z] using NodeType_ind';
    intros newNode index parent dcur fresh Hclean Hsync Hfresh Htarget;
    rewrite clean_unfold in Hclean;
    apply andb_true_iff in Hclean as [Htruthy Hclean];
    apply negb_true_iff in Htruthy;
    destruct (detectVirtualDOMDifference _ (Some newNode)) as [[] | e] eqn:Hd;
    try discriminate Hclean;
    try (eapply replaced_synced; eauto; fail).
  - (* a kept element *)
    apply detect_none_vnode in Hd as Hnew. destruct Hnew as (a' & news & ->).
    apply andb_true_iff in Hclean as [Hplain Hchildren].
    apply bool_decide_eq_true_1 in Hplain. cbn [attributesOf childrenOf] in *.
    destruct Hsync as (bold & Hbold & Hread).
    apply createElement_shape in Hbold as (lold & bo & Hbo & ->).
    apply createElement_shape in Hfresh as (lnew & bn & Hbn & ->).
    destruct dcur as [data x | tag0 a0 l0 v0 ds]; [discriminate Hread |].
    cbn [readBack] in Hread. injection Hread as -> -> Hds.
    destruct (clean_loop tag (putAll (plainAttributes attributes) []) l0 v0 olds IH
                news 0 [] ds bo bn olds news)
      as (ds' & Hnode & Hthrown & Hds'); try assumption; try reflexivity.
    rewrite !app_nil_l in Hnode. rewrite !app_nil_l in Hthrown.
    exists (Element tag (putAll (plainAttributes attributes) []) l0 v0 ds').
    open_update. cbn [falsy]. rewrite Hd. cbn [withResult].
    replace (isVNode (Some (VNode tag attributes olds))
             && isVNode (Some (VNode tag a' news))) with true by reflexivity.
    unfold onChild, childAt. rewrite Htarget. unfold updateChildren.
    cbn [childrenOf node thrown calls]. rewrite Hnode, Hthrown.
    split; [reflexivity |]. split; [reflexivity |].
    cbn [readBack]. rewrite Hds', Hplain. reflexivity.
  - (* a kept string *)
    apply detect_none_leaf in Hd as Hnew; [| reflexivity].
    destruct Hsync as (bold & Hbold & Hread).
    assert (fresh = bold) by congruence. subst fresh.
    exists dcur. open_update. rewrite Htruthy, Hd. cbn [withResult].
    rewrite list_insert_id by exact Htarget. rewrite withChildNodes_same.
    repeat split. exact Hread.
  - (* a kept number *)
    apply detect_none_leaf in Hd as Hnew; [| reflexivity].
    destruct Hsync as (bold & Hbold & Hread).
    assert (fresh = bold) by congruence. subst fresh.
    exists dcur. open_update. rewrite Htruthy, Hd. cbn [withResult].
    rewrite list_insert_id by exact Htarget. rewrite withChildNodes_same.
    repeat split. exact Hread.
Qed.



(** ** 27. The application from mount to pass *)

Section Mounting.
Context {State : Type}.
Variable view : State -> NodeType.

(** X7: the constructor shows nothing yet; the first queued callback
    builds the view of the initial state and appends it after the children
    the mount point already has, sets the old tree and clears the flag. *)
Theorem first_pass_mounts_the_view
    (initial : State) (tag : string) (a l : list (string * AttributeValue))
    (v : option JSValue) (cs : list DOMNode) (d : DOMNode) :
  createElement (view initial) = Return d ->
  element (app (construct view (Some (Element tag a l v cs)) initial))
  = Some (Element tag a l v cs)
  /\ runTimer (construct view (Some (Element tag a l v cs)) initial)
     = (mkHost (mkApp (Some (Element tag a l v (cs ++ [d]))) initial
                      (Some (view initial)) (Some (view initial)) false) 0,
        [mkPass None (Some (view initial)) [AppendChild d] None]).
Proof.
  intros Hd. split; [reflexivity |].
  unfold construct, resolveNode, scheduleRender. cbn [app skipRender negb].
  unfold runTimer. cbn [timers app]. unfold render.
  cbn [oldNode newNode element state skipRender falsy negb].
  unfold appendNew. cbn [createElementOf]. rewrite Hd. reflexivity.
Qed.

(** A pass over a clean change, from a mount point whose first child shows
    the old tree. *)
Lemma render_clean_change (a : App (State := State))
    (T T' : NodeType) (mount d fresh : DOMNode) :
  oldNode a = Some T -> newNode a = Some T' ->
  falsy (Some T) = false ->
  element a = Some mount ->
  childNodesOf mount !! 0 = Some d ->
  inSync d T ->
  clean T T' = true ->
  createElement T' = Return fresh ->
  passThrown (snd (render a)) = None
  /\ oldNode (fst (render a)) = Some T'
  /\ skipRender (fst (render a)) = false
  /\ state (fst (render a)) = state a
  /\ exists mount' d',
       element (fst (render a)) = Some mount'
       /\ childNodesOf mount' !! 0 = Some d'
       /\ inSync d' T'.
Proof.
  intros Hold Hnew Htruthy Helement Hchild Hsync Hclean Hfresh.
  destruct (clean_update T T' 0 mount d fresh Hclean Hsync Hfresh Hchild)
    as (d' & Hnode & Hthrown & Hread).
  unfold render. rewrite Hold, Hnew, Helement, Htruthy. cbn [negb].
  rewrite Hthrown. cbn [fst snd passThrown oldNode skipRender state element].
  rewrite Hnode. do 4 (split; [reflexivity |]).
  exists (withChildNodes mount (<[0 := d']> (childNodesOf mount))), d'.
  split; [reflexivity |]. split.
  - destruct mount as [data x | tag a0 l v cs];
      [discriminate Hchild |].
    cbn [withChildNodes childNodesOf] in *.
    apply list_lookup_insert_eq. eapply lookup_lt_Some, Hchild.
  - exists fresh. split; assumption.
Qed.

(** A turn with a clean change keeps the application mounted. *)
Lemma turn_keeps_mounted (actions : list ActionType) (h : Host) (fresh : DOMNode) :
  mounted view h ->
  clean (view (state (app h)))
        (view (fold_left (fun s action => action s) actions (state (app h))))
  = true ->
  falsy (Some (view (state (app h)))) = false ->
  createElement
    (view (fold_left (fun s action => action s) actions (state (app h))))
  = Return fresh ->
  mounted view (turn view actions h)
  /\ state (app (turn view actions h))
     = fold_left (fun s action => action s) actions (state (app h))
  /\ map passThrown (snd (flush (segment view actions h)))
     = if bool_decide (actions = []) then [] else [None].
Proof.
  intros (Hidle & Htimers & Hold & mount & d & Helement & Hchild & Hsync)
         Hclean Htruthy Hfresh.
  destruct actions as [| action rest].
  - unfold turn, flush, segment. cbn [fold_left]. rewrite Htimers.
    cbn [runTimers fst snd map]. repeat split; try assumption.
    exists mount, d. repeat split; assumption.
  - set (actions := action :: rest) in *.
    assert (Hc : consistent h) by (unfold consistent; rewrite Hidle; exact Htimers).
    destruct (segment_spec view actions h Hc) as (Hs & Hn & Ho & He & Hp & Ht);
      [discriminate |].
    destruct (render_clean_change (app (segment view actions h))
                (view (state (app h)))
                (view (fold_left (fun s action => action s) actions (state (app h))))
                mount d fresh)
      as (Hthrown & Hold' & Hflag & Hstate & mount' & d' & He' & Hc' & Hs');
      try assumption; try congruence.
    unfold turn, flush. rewrite Ht. cbn [runTimers].
    rewrite (runTimer_pending _ 0 Ht). cbn [fst snd app timers].
    rewrite app_nil_r. cbn [map]. rewrite Hthrown.
    split; [| split; [rewrite Hstate; exact Hs | reflexivity]].
    unfold mounted. cbn [app timers]. rewrite Hflag, Hold', Hstate, Hs.
    do 3 (split; [reflexivity |]).
    exists mount', d'. repeat split; assumption.
Qed.

End Mounting.

Lemma first_pass_mounts_the_view_witness :
  element (app (construct counterView (Some (mountPoint [])) 0%Z))
  = Some (mountPoint [])
  /\ runTimer (construct counterView (Some (mountPoint [])) 0%Z)
     = (mkHost (mkApp (Some (mountPoint ([] ++ [nativeCounter "0"]))) (num 0)
                      (Some (counterView 0)) (Some (counterView 0)) false) 0,
        [mkPass None (Some (counterView 0)) [AppendChild (nativeCounter "0")] None]).
Proof.
  apply (first_pass_mounts_the_view counterView 0%Z
           "div" [("id", AString "app")] [] None [] (nativeCounter "0")).
  reflexivity.
Defined.


(** ** 28. The counter of [index.ts] *)

(** *** Integers as numbers: [count++] below and at [2^53] *)

Lemma digits2_log2 (p : positive) :
  Z.pos (digits2_pos p) = (Z.log2 (Z.pos p) + 1)%Z.
Proof.
  induction p as [p IH | p IH |]; cbn [digits2_pos].
  - rewrite Pos2Z.inj_succ, IH.
    change (Z.pos p~1) with (2 * Z.pos p + 1)%Z.
    rewrite Z.log2_succ_double by lia. lia.
  - rewrite Pos2Z.inj_succ, IH.
    change (Z.pos p~0) with (2 * Z.pos p)%Z.
    rewrite Z.log2_double by lia. lia.
  - reflexivity.
Qed.

Lemma iter_xO_value (m d : positive) :
  Z.pos (Pos.iter xO m d) = (Z.pos m * 2 ^ Z.pos d)%Z.
Proof.
  induction d as [| d IH] using Pos.peano_ind.
  - cbn [Pos.iter]. change (Z.pos m~0) with (2 * Z.pos m)%Z. lia.
  - rewrite Pos.iter_succ, Pos2Z.inj_succ, Z.pow_succ_r by lia.
    change (Z.pos (Pos.iter xO m d)~0) with (2 * Z.pos (Pos.iter xO m d))%Z.
    rewrite IH. lia.
Qed.

Lemma iter_pos_nat {A} (f : A -> A) (p : positive) (x : A) :
  SpecFloat.iter_pos f p x = Nat.iter (Pos.to_nat p) f x.
Proof.
  revert x. induction p as [p IH | p IH |]; intros x; cbn [SpecFloat.iter_pos].
  - rewrite !IH, Pos2Nat.inj_xI.
    change (S (2 * Pos.to_nat p)) with (S (Pos.to_nat p + (Pos.to_nat p + 0))).
    rewrite Nat.add_0_r, Nat.iter_succ_r, Nat.iter_add. reflexivity.
  - rewrite !IH, Pos2Nat.inj_xO.
    change (2 * Pos.to_nat p)%nat with (Pos.to_nat p + (Pos.to_nat p + 0))%nat.
    rewrite Nat.add_0_r, Nat.iter_add. reflexivity.
  - reflexivity.
Qed.

(** Shifting out bits that are all zero is exact. *)
Lemma shr_exact (k : nat) (m : positive) :
  Nat.iter k shr_1 (Build_shr_record (Z.pos (Nat.iter k xO m)) false false)
  = Build_shr_record (Z.pos m) false false.
Proof.
  induction k as [| k IH]; [reflexivity |].
  rewrite Nat.iter_succ_r. cbn [Nat.iter shr_1 orb]. exact IH.
Qed.

Lemma round_mantissa (m : positive) (e : Z) :
  Z.pos (digits2_pos m) = 53%Z -> (-1074 <= e <= 971)%Z ->
  binary_round_aux prec64 emax64 false (Z.pos m) e loc_Exact = S754_finite false m e.
Proof.
  intros Hd He. unfold binary_round_aux, shr_fexp, fexp, emin, prec64, emax64.
  cbn [Zdigits2 shr_record_of_loc]. rewrite Hd.
  replace (Z.max (53 + e - 53) (3 - 1024 - 53) - e)%Z with 0%Z by lia.
  cbn [shr shr_m loc_of_shr_record round_nearest_even Zdigits2 shr_record_of_loc].
  rewrite Hd.
  replace (Z.max (53 + e - 53) (3 - 1024 - 53) - e)%Z with 0%Z by lia.
  cbn [shr shr_m]. 
  destruct (Z.leb_spec e (1024 - 53)); [reflexivity | lia].
Qed.

(** A value [M * 2^E] that is [m * 2^e] for a mantissa [m] of 53 bits
    rounds to the number [m * 2^e]: from a larger exponent ... *)
Lemma binary_round_from_above (m M : positive) (e E : Z) :
  Z.pos (digits2_pos m) = 53%Z -> (-1074 <= e <= 971)%Z ->
  (e <= E)%Z -> Z.pos m = (Z.pos M * 2 ^ (E - e))%Z ->
  binary_round prec64 emax64 false M E = S754_finite false m e.
Proof.
  intros Hd He HE Hm. unfold binary_round.
  assert (Hfexp : fexp prec64 emax64 (Z.pos (digits2_pos M) + E) = e).
  { rewrite digits2_log2 in Hd |- *.
    assert (Z.log2 (Z.pos m) = Z.log2 (Z.pos M) + (E - e))%Z.
    { rewrite Hm, Z.log2_mul_pow2 by lia. lia. }
    unfold fexp, emin, prec64, emax64. lia. }
  rewrite Hfexp. unfold shl_align.
  destruct (e - E)%Z as [| d | d] eqn:Hsub; try lia.
  - replace (E - e)%Z with 0%Z in Hm by lia.
    assert (M = m) as -> by lia. replace E with e by lia.
    apply round_mantissa; assumption.
  - assert (Pos.iter xO M d = m) as ->.
    { apply Pos2Z.inj. rewrite iter_xO_value, Hm.
      replace (E - e)%Z with (Z.pos d) by lia. reflexivity. }
    apply round_mantissa; assumption.
Qed.

(** ... and from a smaller one. *)
Lemma binary_round_from_below (m M : positive) (e E : Z) :
  Z.pos (digits2_pos m) = 53%Z -> (-1074 <= e <= 971)%Z ->
  (E <= e)%Z -> Z.pos M = (Z.pos m * 2 ^ (e - E))%Z ->
  binary_round prec64 emax64 false M E = S754_finite false m e.
Proof.
  intros Hd He HE HM. unfold binary_round.
  assert (Hfexp : fexp prec64 emax64 (Z.pos (digits2_pos M) + E) = e).
  { rewrite digits2_log2 in Hd |- *.
    assert (Z.log2 (Z.pos M) = Z.log2 (Z.pos m) + (e - E))%Z.
    { rewrite HM, Z.log2_mul_pow2 by lia. lia. }
    unfold fexp, emin, prec64, emax64. lia. }
  rewrite Hfexp. unfold shl_align.
  remember (e - E)%Z as sh eqn:Hsub. symmetry in Hsub.
  destruct sh as [| d | d]; try lia.
  - rewrite Z.pow_0_r, Z.mul_1_r in HM.
    assert (M = m) as -> by lia. replace E with e by lia.
    apply round_mantissa; assumption.
  - unfold binary_round_aux, shr_fexp. cbn [Zdigits2]. rewrite Hfexp, Hsub.
    cbn [shr shr_record_of_loc]. rewrite iter_pos_nat.
    assert (M = Nat.iter (Pos.to_nat d) xO m) as ->.
    { change (Nat.iter (Pos.to_nat d) xO m)
        with (nat_rect (fun _ => positive) m (fun _ => xO) (Pos.to_nat d)).
      rewrite <- Pos2Nat.inj_iter. apply Pos2Z.inj.
      rewrite iter_xO_value, HM. reflexivity. }
    rewrite shr_exact. cbn [shr_m loc_of_shr_record round_nearest_even Zdigits2].
    rewrite Hd. unfold fexp, emin, prec64, emax64.
    replace (Z.max (53 + (E + Z.pos d) - 53) (3 - 1024 - 53) - (E + Z.pos d))%Z
      with 0%Z by lia.
    cbn [shr shr_record_of_loc shr_m].
    replace (E + Z.pos d)%Z with e by lia.
    destruct (Z.leb_spec e (1024 - 53)); [reflexivity | lia].
Qed.

(** The number of a positive integer below [2^53]: the integer itself,
    with its mantissa brought to 53 bits. *)
Lemma num_shape (N : positive) :
  (Z.pos N < 2 ^ 53)%Z ->
  exists m,
    num (Z.pos N) = S754_finite false m (Z.log2 (Z.pos N) - 52)
    /\ Z.pos (digits2_pos m) = 53%Z
    /\ Z.pos m = (Z.pos N * 2 ^ (52 - Z.log2 (Z.pos N)))%Z.
Proof.
  intros HN.
  assert (Hlog : (0 <= Z.log2 (Z.pos N) < 53)%Z).
  { split; [apply Z.log2_nonneg |]. apply Z.log2_lt_pow2; lia. }
  assert (Hpos : (0 < Z.pos N * 2 ^ (52 - Z.log2 (Z.pos N)))%Z).
  { apply Z.mul_pos_pos; [lia |]. apply Z.pow_pos_nonneg; lia. }
  destruct (Z.pos N * 2 ^ (52 - Z.log2 (Z.pos N)))%Z as [| m | m] eqn:Hm; try lia.
  exists m.
  assert (Hd : Z.pos (digits2_pos m) = 53%Z).
  { rewrite digits2_log2, <- Hm, Z.log2_mul_pow2 by lia. lia. }
  split; [| split; [exact Hd | reflexivity]].
  unfold num, binary_normalize.
  apply binary_round_from_above; [exact Hd | lia | lia |].
  replace (0 - (Z.log2 (Z.pos N) - 52))%Z with (52 - Z.log2 (Z.pos N))%Z by lia.
  symmetry. exact Hm.
Qed.

Lemma num_one : num 1 = S754_finite false (2 ^ 52) (-52).
Proof. reflexivity. Qed.

Lemma num_top : num (2 ^ 53) = S754_finite false (2 ^ 52) 1.
Proof. reflexivity. Qed.

(** Below [2^53], [count++] is the next integer. *)
Lemma increment_exact (n : Z) :
  (0 <= n < 2 ^ 53)%Z -> increment (num n) = num (n + 1).
Proof.
  intros Hn. destruct n as [| N | N]; [reflexivity | | lia].
  destruct (num_shape N) as (m & Hnum & Hd & Hm); [lia |].
  assert (Hlog : (0 <= Z.log2 (Z.pos N) < 53)%Z).
  { split; [apply Z.log2_nonneg |]. apply Z.log2_lt_pow2; lia. }
  unfold increment, plus. rewrite Hnum, num_one. unfold SFadd.
  set (e := (Z.log2 (Z.pos N) - 52)%Z) in *.
  replace (Z.min e (-52)) with (-52)%Z by lia.
  assert (Hsum : exists M,
             (cond_Zopp false (Z.pos (fst (shl_align m e (-52))))
              + cond_Zopp false (Z.pos (fst (shl_align (2 ^ 52) (-52) (-52)))))%Z
             = Z.pos M
             /\ Z.pos M = ((Z.pos N + 1) * 2 ^ 52)%Z).
  { cbn [cond_Zopp]. unfold shl_align.
    change (-52 - -52)%Z with 0%Z. cbn [fst].
    exists (fst match (-52 - e)%Z with
                | Z.neg d => (Pos.iter xO m d, (-52)%Z)
                | _ => (m, e)
                end + 2 ^ 52)%positive.
    split; [reflexivity |]. rewrite Pos2Z.inj_add.
    destruct (-52 - e)%Z as [| d | d] eqn:Hsub; try lia; cbn [fst].
    - rewrite Hm. replace (52 - Z.log2 (Z.pos N))%Z with 52%Z by lia. lia.
    - rewrite iter_xO_value, Hm, <- Z.mul_assoc, <- Z.pow_add_r by lia.
      replace (52 - Z.log2 (Z.pos N) + Z.pos d)%Z with 52%Z by lia. lia. }
  destruct Hsum as (M & -> & HM).
  unfold binary_normalize.
  destruct (Z.eq_dec (Z.pos N + 1)%Z (2 ^ 53)%Z) as [Htop | Hbelow].
  - rewrite Htop, num_top.
    apply binary_round_from_below; [reflexivity | lia | lia |].
    rewrite HM, Htop. reflexivity.
  - change (Z.pos N + 1)%Z with (Z.pos (N + 1)).
    destruct (num_shape (N + 1)) as (m' & Hnum' & Hd' & Hm'); [lia |].
    assert (Hlog' : (0 <= Z.log2 (Z.pos (N + 1)) < 53)%Z).
    { split; [apply Z.log2_nonneg |]. apply Z.log2_lt_pow2; lia. }
    rewrite Hnum'.
    apply binary_round_from_below; [exact Hd' | lia | lia |].
    rewrite HM, Hm', <- Z.mul_assoc, <- Z.pow_add_r by lia.
    f_equal. f_equal. lia.
Qed.

(** At [2^53] it stays where it is: [2^53 + 1] is not a number, and the
    nearest number with an even mantissa is [2^53]. *)
Lemma increment_top : increment (num (2 ^ 53)) = num (2 ^ 53).
Proof. vm_compute. reflexivity. Qed.

Lemma increments (n : nat) (a : Z) :
  (0 <= a <= 2 ^ 53)%Z ->
  fold_left (fun s action => action s) (repeat increment n) (num a)
  = num (Z.min (a + Z.of_nat n) (2 ^ 53)).
Proof.
  revert a. induction n as [| n IH]; intros a Ha.
  - cbn [repeat fold_left]. f_equal. lia.
  - cbn [repeat fold_left].
    destruct (Z.eq_dec a (2 ^ 53)%Z) as [-> | Hne].
    + rewrite increment_top, IH by lia. f_equal. lia.
    + rewrite increment_exact, IH by lia. f_equal. lia.
Qed.

(** The number of a positive integer up to [2^53] is not falsy. *)
Lemma num_truthy (z : Z) : (1 <= z <= 2 ^ 53)%Z -> falsyNumber (num z) = false.
Proof.
  intros Hz. destruct (Z.eq_dec z (2 ^ 53)%Z) as [-> | Hne]; [reflexivity |].
  destruct z as [| N | N]; try lia.
  destruct (num_shape N) as (m & -> & _); [lia | reflexivity].
Qed.

(** *** The view of the counter *)

Lemma clean_number (a b : Number) :
  falsyNumber b = false -> clean (JNumber a) (JNumber b) = true.
Proof.
  intros Hb. rewrite clean_unfold. cbn [falsy]. rewrite Hb. cbn [negb andb].
  unfold detectVirtualDOMDifference.
  replace (isVNode (Some (JNumber a))) with false by reflexivity.
  cbn [typeof strictlyEqual]. rewrite bool_decide_eq_true_2 by reflexivity.
  cbn [negb andb]. destruct (SFeqb a b); reflexivity.
Qed.

Lemma clean_counter g g' (a b : Number) :
  falsyNumber b = false ->
  clean (counterViewWith g a) (counterViewWith g' b) = true.
Proof.
  intros Hb. unfold counterViewWith.
  change (clean
            (h "div" None
               [h "p" None [JNumber a];
                h "button"
                  (Some [("type", AString "button"); ("onclick", AFunction g)])
                  [JString "count up"]])
            (h "div" None
               [h "p" None [JNumber b];
                h "button"
                  (Some [("type", AString "button"); ("onclick", AFunction g')])
                  [JString "count up"]]))
    with (clean (JNumber a) (JNumber b) && true && (true && true)).
  rewrite clean_number by exact Hb. reflexivity.
Qed.

Lemma counter_turns (f : Number -> nat) (ns : list nat) (h : Host) (a : Z) :
  mounted (counterApp f) h ->
  state (app h) = num a ->
  (0 <= a <= 2 ^ 53)%Z ->
  mounted (counterApp f)
    (turns (counterApp f) (map (fun n => repeat increment n) ns) h)
  /\ state (app (turns (counterApp f) (map (fun n => repeat increment n) ns) h))
     = num (Z.min (a + Z.of_nat (sum_list ns)) (2 ^ 53)).
Proof.
  revert h a. induction ns as [| n rest IH]; intros h a Hmounted Hstate Ha.
  - cbn. split; [exact Hmounted |]. rewrite Hstate. f_equal. lia.
  - change (turns (counterApp f) (map (fun n => repeat increment n) (n :: rest)) h)
      with (turns (counterApp f) (map (fun n => repeat increment n) rest)
              (turn (counterApp f) (repeat increment n) h)).
    change (sum_list (n :: rest)) with (n + sum_list rest).
    assert (Hturn :
      mounted (counterApp f) (turn (counterApp f) (repeat increment n) h)
      /\ state (app (turn (counterApp f) (repeat increment n) h))
         = num (Z.min (a + Z.of_nat n) (2 ^ 53))).
    { destruct n as [| n].
      - destruct Hmounted as (Hidle & Htimers & Hrest).
        unfold turn, flush, segment. cbn [repeat fold_left]. rewrite Htimers.
        cbn [runTimers fst].
        split; [exact (conj Hidle (conj Htimers Hrest)) |].
        rewrite Hstate. f_equal. lia.
      - set (c := num (Z.min (a + Z.of_nat (S n)) (2 ^ 53))).
        assert (Hfold : fold_left (fun s action => action s)
                          (repeat increment (S n)) (state (app h)) = c).
        { rewrite Hstate. apply increments. exact Ha. }
        destruct (turn_keeps_mounted (counterApp f) (repeat increment (S n)) h
                    (Element "div" [] [] None
                       [nativeParagraph (numberToString c);
                        Element "button" [("type", AString "button")]
                          [("click", AFunction (f c))]
                          None [Text "count up" None]]) Hmounted)
          as (Hm & Hs & _).
        + rewrite Hfold. apply clean_counter. apply num_truthy. lia.
        + reflexivity.
        + rewrite Hfold. reflexivity.
        + split; [exact Hm |]. rewrite Hs. exact Hfold. }
    destruct Hturn as [Hm Hs].
    destruct (IH (turn (counterApp f) (repeat increment n) h)
                 (Z.min (a + Z.of_nat n) (2 ^ 53)) Hm Hs) as [Hm' Hs'].
    + lia.
    + split; [exact Hm' |]. rewrite Hs'. f_equal. lia.
Qed.

(** X9: the application of [index.ts], mounted on an empty mount point.
    After the first pass and any number of turns, each a synchronous burst
    of clicks on the button followed by the queued callbacks,
    [state.count] is the number of clicks so far as long as that is at
    most [2^53], and [2^53] from then on, where [count++] no longer
    changes it; the application is idle, and the first child of the mount
    point shows the counter with the decimal form of [state.count],
    whichever closures the view built along the way. *)
Theorem counter_shows_the_count (f : Number -> nat) (clicks : list nat) :
  let h := turns (counterApp f) (map (fun n => repeat increment n) clicks)
             (fst (runTimer (construct (counterApp f) (Some (mountPoint [])) 0%Z))) in
  state (app h) = num (Z.min (Z.of_nat (sum_list clicks)) (2 ^ 53))
  /\ skipRender (app h) = false
  /\ timers h = 0
  /\ exists mount d,
       element (app h) = Some mount
       /\ childNodesOf mount !! 0 = Some d
       /\ readBack d
          = readBack (nativeCounter (numberToString (state (app h)))).
Proof.
  cbn zeta.
  destruct (counter_turns f clicks
              (fst (runTimer (construct (counterApp f) (Some (mountPoint [])) 0%Z)))
              0)
    as ((Hidle & Htimers & _ & mount & d & Helement & Hchild & b & Hb & Hread) & Hs).
  - repeat split.
    do 2 eexists. split; [reflexivity |]. split; [reflexivity |].
    eexists. split; reflexivity.
  - reflexivity.
  - lia.
  - split; [exact Hs |]. split; [exact Hidle |].
    split; [exact Htimers |].
    exists mount, d. split; [exact Helement |]. split; [exact Hchild |].
    rewrite Hread. unfold counterApp, counterViewWith in Hb.
    injection Hb as <-. reflexivity.
Qed.

(** ** 29. Child lists that grow or shrink *)

Lemma clean_same (T : NodeType) : truthyTree T = true -> clean T T = true.
Proof.
  induction T as [tag attributes children IH | s | z] using NodeType_ind';
    intros Htruthy;
    cbn [truthyTree] in Htruthy; apply andb_true_iff in Htruthy as [Hroot Hrest];
    rewrite clean_unfold, detect_same_truthy
      by (apply negb_true_iff; exact Hroot);
    rewrite Hroot; cbn [andb]; try reflexivity.
  cbn [attributesOf childrenOf]. rewrite bool_decide_eq_true_2 by reflexivity.
  cbn [andb]. clear Hroot.
  induction IH as [| c rest Hc _ IHrest]; [reflexivity |].
  cbn [forallb] in Hrest. apply andb_true_iff in Hrest as [Hct Hrestt].
  cbn [cleanChildren]. fold cleanChildren. rewrite (Hc Hct), (IHrest Hrestt).
  reflexivity.
Qed.

Lemma same_tree_quiet (T : NodeType) :
  truthyTree T = true ->
  forall index r, quiet (updateElement (Some T) (Some T) index r) r.
Proof.
  induction T as [tag attributes children IH | s | z] using NodeType_ind';
    intros Htruthy index parent;
    unfold updateElement; rewrite updateDefined_eq; unfold updateWith;
    (apply quiet_andThen;
     [destruct parent; split; reflexivity | intros r]).
  - cbn [falsy]. rewrite detect_same by discriminate.
    cbn [withResult isVNode typeof andb negb].
    cbn. apply quiet_onChild. intros r'. unfold updateChildren.
    apply quiet_childLoop; [exact IH |]. cbn in Htruthy. exact Htruthy.
  - cbn [truthyTree] in Htruthy. apply andb_true_iff in Htruthy as [Hs _].
    apply negb_true_iff in Hs. rewrite Hs, detect_same_truthy by exact Hs.
    split; reflexivity.
  - cbn [truthyTree] in Htruthy. apply andb_true_iff in Htruthy as [Hz _].
    apply negb_true_iff in Hz. rewrite Hz, detect_same_truthy by exact Hz.
    split; reflexivity.
Qed.

(** The update of a tree by itself, on a native node that shows it: no
    call, no exception, nothing changed. *)
Lemma same_tree_silent (T : NodeType) index parent d :
  truthyTree T = true ->
  inSync d T ->
  childNodesOf parent !! index = Some d ->
  updateElement (Some T) (Some T) index (Some parent)
  = mkOutcome (Some parent) [] None.
Proof.
  intros Htruthy Hsync Htarget.
  destruct (same_tree_quiet T Htruthy index (Some parent)) as [Hcalls Hnode].
  destruct Hsync as (b & Hb & Hread).
  destruct (clean_update T T index parent d b (clean_same T Htruthy)) as
    (d' & _ & Hthrown & _); [exists b; split; assumption | exact Hb | exact Htarget |].
  destruct (updateElement (Some T) (Some T) index (Some parent)) as [n c t].
  cbn in *. subst. reflexivity.
Qed.

(** Iterations of the child loop that change nothing can be skipped. *)
Lemma childLoop_skip_silent k k2 i (olds news : list NodeType) recv :
  (forall j, i <= j < i + k ->
     updateElement (olds !! j) (news !! j) j recv = mkOutcome recv [] None) ->
  childLoop (k + k2) i olds news recv = childLoop k2 (i + k) olds news recv.
Proof.
  revert i. induction k as [| k IH]; intros i Hsilent.
  - rewrite Nat.add_0_r. reflexivity.
  - cbn [Nat.add childLoop]. unfold andThen. rewrite (Hsilent i) by lia.
    cbn [thrown node calls].
    rewrite IH by (intros j Hj; apply Hsilent; lia).
    replace (S i + k) with (i + S k) by lia.
    destruct (childLoop k2 (i + S k) olds news recv). reflexivity.
Qed.

(** The positions a list of children has in common with itself extended
    are silent on the node [createElement] built. *)
Lemma common_children_silent cs bo (olds news : list NodeType) tag a l v rest :
  forallb truthyTree cs = true ->
  created cs bo ->
  (forall j c, cs !! j = Some c -> olds !! j = Some c /\ news !! j = Some c) ->
  forall j, 0 <= j < 0 + length cs ->
    updateElement (olds !! j) (news !! j) j (Some (Element tag a l v (bo ++ rest)))
    = mkOutcome (Some (Element tag a l v (bo ++ rest))) [] None.
Proof.
  intros Htruthy Hbo Hlookups j Hj.
  destruct (cs !! j) as [c |] eqn:Hc;
    [| apply lookup_ge_None in Hc; lia].
  destruct (Hlookups j c Hc) as [-> ->].
  destruct (Forall2_lookup_l _ _ _ _ _ Hbo Hc) as (b & Hb & Hcb).
  apply (same_tree_silent c j _ b).
  - rewrite forallb_forall in Htruthy. apply Htruthy.
    apply list_elem_of_In. eapply list_elem_of_lookup_2, Hc.
  - exists b. split; [exact Hcb | reflexivity].
  - cbn [childNodesOf]. rewrite lookup_app_l by (eapply lookup_lt_Some, Hb).
    exact Hb.
Qed.

Lemma same_shell_update tag a olds news index parent :
  updateElement (Some (VNode tag a olds)) (Some (VNode tag a news)) index
    (Some parent)
  = onChild index (updateChildren olds news) (Some parent).
Proof.
  open_update. cbn [falsy]. rewrite detect_vnodes.
  rewrite !bool_decide_eq_true_2 by reflexivity.
  cbn [negb withResult childrenOf].
  change (isVNode (Some (VNode tag a olds)) && isVNode (Some (VNode tag a news)))
    with true. cbv iota. rewrite app_nil_l.
  destruct (onChild index (updateChildren olds news) (Some parent)).
  reflexivity.
Qed.

(** An old child without a new one: [removeChild] at the child's old
    index. *)
Lemma removal_step o i p :
  updateElement (Some o) None i (Some p) = removeChildE i (Some p).
Proof.
  open_update. cbn [falsy]. rewrite app_nil_l.
  destruct (removeChildE i (Some p)). reflexivity.
Qed.

Lemma removal_past_end k i (olds news : list NodeType) tag a l v ds :
  length ds <= i ->
  (exists o, olds !! i = Some o) -> news !! i = None ->
  childLoop (S k) i olds news (Some (Element tag a l v ds))
  = mkOutcome (Some (Element tag a l v ds)) [] (Some TypeError).
Proof.
  intros Hlen [o Ho] Hn. cbn [childLoop]. unfold andThen.
  rewrite Ho, Hn, removal_step. unfold removeChildE, childAt.
  cbn [childNodesOf]. rewrite lookup_ge_None_2 by exact Hlen. reflexivity.
Qed.

(** The loop over positions the new list no longer has: the calls
    [removeChild] are made at growing indexes on a list that shrinks, so
    every second child is removed, and the loop stops with an exception at
    the first index the shrunk list no longer has. *)
Lemma removal_loop k (olds news : list NodeType) tag a l v :
  forall pre tl,
  length tl <= k ->
  (forall j, length pre <= j < length pre + k ->
     (exists o, olds !! j = Some o) /\ news !! j = None) ->
  childLoop k (length pre) olds news (Some (Element tag a l v (pre ++ tl)))
  = mkOutcome (Some (Element tag a l v (pre ++ everySecond tl)))
      (map RemoveChild (seq (length pre) (Nat.div2 (S (length tl)))))
      (if Nat.ltb (Nat.div2 (S (length tl))) k then Some TypeError else None).
Proof.
  induction k as [| k IH]; intros pre tl Hlen Hlookups.
  - destruct tl; [| cbn in Hlen; lia]. reflexivity.
  - destruct tl as [| x [| y rest]].
    + cbn [everySecond]. rewrite removal_past_end;
        [reflexivity | rewrite app_nil_r; lia | apply Hlookups; lia ..].
    + cbn [childLoop]. unfold andThen.
      destruct (Hlookups (length pre)) as [[o Ho] Hn]; [lia |].
      rewrite Ho, Hn, removal_step. unfold removeChildE, childAt.
      cbn [childNodesOf]. rewrite lookup_app_r, Nat.sub_diag by lia.
      cbn [lookup list_lookup thrown node calls withChildNodes childNodesOf].
      rewrite delete_after_prefix by reflexivity.
      destruct k as [| k'].
      * reflexivity.
      * rewrite removal_past_end;
          [reflexivity | rewrite app_nil_r; lia | apply Hlookups; lia ..].
    + cbn [childLoop]. unfold andThen.
      destruct (Hlookups (length pre)) as [[o Ho] Hn]; [lia |].
      rewrite Ho, Hn, removal_step. unfold removeChildE, childAt.
      cbn [childNodesOf]. rewrite lookup_app_r, Nat.sub_diag by lia.
      cbn [lookup list_lookup thrown node calls withChildNodes childNodesOf].
      rewrite delete_after_prefix by reflexivity.
      cbn [length] in Hlen.
      specialize (IH (pre ++ [y]) rest).
      rewrite length_app in IH. cbn [length] in IH.
      replace (length pre + 1) with (S (length pre)) in IH by lia.
      rewrite <- !app_assoc in IH. rewrite (cons_middle y pre rest).
      rewrite IH; [| lia | intros j Hj; apply Hlookups; lia].
      reflexivity.
Qed.

(** X10: a new element that is the old element with children added at
    the end of its list.  When no node at any depth of the old children is
    falsy, the child at [index] is the node [createElement] built from the
    old element, and [createElement] builds the added children (trees with
    names the DOM stores as given, for which [createElement] returns), the
    update makes exactly the calls [appendChild] of the nodes built from
    the added children, in order, on the child at [index]; nothing throws,
    and the children already there are left as they are. *)
Theorem added_children_are_appended tag a olds extra built index parent dold :
  forallb truthyTree olds = true ->
  createElement (VNode tag a olds) = Return dold ->
  forallb plainNames extra = true ->
  created extra built ->
  childNodesOf parent !! index = Some dold ->
  updateElement (Some (VNode tag a olds)) (Some (VNode tag a (olds ++ extra)))
    index (Some parent)
  = mkOutcome
      (Some (withChildNodes parent
               (<[index := withChildNodes dold (childNodesOf dold ++ built)]>
                  (childNodesOf parent))))
      (map (fun b => OnChild index (AppendChild b)) built)
      None.
Proof.
  intros Htruthy Hold _ Hbuilt Htarget.
  destruct (createElement_shape _ _ _ _ Hold) as (l & bs & Hbs & ->).
  rewrite same_shell_update. unfold onChild, childAt. rewrite Htarget.
  unfold updateChildren. rewrite length_app.
  replace (max (length olds + length extra) (length olds))
    with (length olds + length extra) by lia.
  assert (childLoop (length olds + length extra) 0 olds (olds ++ extra)
            (Some (Element tag (putAll (plainAttributes a) []) l None bs))
          = mkOutcome
              (Some (Element tag (putAll (plainAttributes a) []) l None
                       (bs ++ built)))
              (map AppendChild built) None) as ->.
  { rewrite <- (app_nil_r bs) at 1. rewrite childLoop_skip_silent.
    - rewrite app_nil_r.
      apply (childLoop_appends extra built (0 + length olds) olds (olds ++ extra)
               _ _ _ _ bs Hbuilt).
      + intros j. apply lookup_ge_None_2. lia.
      + intros j. rewrite lookup_app_r by lia. f_equal. lia.
    - apply (common_children_silent olds bs); [exact Htruthy | exact Hbs |].
      intros j c Hc. split; [exact Hc |].
      rewrite lookup_app_l by (eapply lookup_lt_Some, Hc). exact Hc. }
  cbn [node calls thrown childNodesOf withChildNodes].
  rewrite map_map. reflexivity.
Qed.

Lemma surplus_throws (g : nat) :
  Nat.ltb (Nat.div2 (S g)) g = Nat.leb 2 g.
Proof.
  destruct g as [| [| g]]; [reflexivity | reflexivity |].
  cbn [Nat.leb]. apply Nat.ltb_lt.
  change (Nat.div2 (S (S (S g)))) with (S (Nat.div2 (S g))).
  pose proof (Nat.div2_decr (S g) g). lia.
Qed.

(** X11: a new element that is the old element with children dropped from
    the end of its list.  When no node at any depth of the kept children
    is falsy and the child at [index] is the node [createElement] built
    from the old element, the loop calls [removeChild] with the indexes
    the dropped children had in the old list, on a native list that
    shrinks under it: of the dropped children only every second one is
    removed (the first, the third, ...), the others stay in the document,
    the kept children are left as they are, and the update ends with a
    [TypeError] exactly when two or more children are dropped. *)
Theorem dropped_children_every_second_removed tag a cs gone index parent dold :
  forallb truthyTree cs = true ->
  createElement (VNode tag a (cs ++ gone)) = Return dold ->
  childNodesOf parent !! index = Some dold ->
  exists bs bgone,
    created cs bs /\ created gone bgone
    /\ childNodesOf dold = bs ++ bgone
    /\ updateElement (Some (VNode tag a (cs ++ gone))) (Some (VNode tag a cs))
         index (Some parent)
       = mkOutcome
           (Some (withChildNodes parent
                    (<[index := withChildNodes dold (bs ++ everySecond bgone)]>
                       (childNodesOf parent))))
           (map (fun j => OnChild index (RemoveChild j))
              (seq (length cs) (Nat.div2 (S (length gone)))))
           (if Nat.leb 2 (length gone) then Some TypeError else None).
Proof.
  intros Htruthy Hold Htarget.
  destruct (createElement_shape _ _ _ _ Hold) as (l & bo & Hbo & ->).
  apply Forall2_app_inv_l in Hbo as (bs & bgone & Hbs & Hgone & ->).
  exists bs, bgone. split; [exact Hbs |]. split; [exact Hgone |].
  split; [reflexivity |].
  pose proof (Forall2_length _ _ _ Hbs) as Hlen.
  pose proof (Forall2_length _ _ _ Hgone) as Hlen'.
  rewrite same_shell_update. unfold onChild, childAt. rewrite Htarget.
  unfold updateChildren. rewrite length_app.
  replace (max (length cs) (length cs + length gone))
    with (length cs + length gone) by lia.
  assert (childLoop (length cs + length gone) 0 (cs ++ gone) cs
            (Some (Element tag (putAll (plainAttributes a) []) l None
                     (bs ++ bgone)))
          = mkOutcome
              (Some (Element tag (putAll (plainAttributes a) []) l None
                       (bs ++ everySecond bgone)))
              (map RemoveChild (seq (length cs) (Nat.div2 (S (length gone)))))
              (if Nat.leb 2 (length gone) then Some TypeError else None)) as ->.
  { rewrite childLoop_skip_silent.
    - cbn [Nat.add]. rewrite Hlen, Hlen', removal_loop.
      + rewrite surplus_throws. reflexivity.
      + lia.
      + intros j Hj. split.
        * apply lookup_lt_is_Some. rewrite length_app. lia.
        * apply lookup_ge_None_2. lia.
    - apply (common_children_silent cs bs); [exact Htruthy | exact Hbs |].
      intros j c Hc. split; [| exact Hc].
      rewrite lookup_app_l by (eapply lookup_lt_Some, Hc). exact Hc. }
  cbn [node calls thrown childNodesOf withChildNodes].
  rewrite map_map. reflexivity.
Qed.

Lemma added_children_are_appended_witness :
  updateElement (Some (listView 1)) (Some (listView 3)) 0
    (Some (mountPoint [Element "ul" [] [] None [nativeBare "li"]]))
  = mkOutcome
      (Some (mountPoint
               [Element "ul" [] [] None
                  [nativeBare "li"; nativeBare "li"; nativeBare "li"]]))
      [OnChild 0 (AppendChild (nativeBare "li"));
       OnChild 0 (AppendChild (nativeBare "li"))]
      None.
Proof.
  apply (added_children_are_appended "ul" None
           [h "li" None []] [h "li" None []; h "li" None []]
           [nativeBare "li"; nativeBare "li"] 0
           (mountPoint [Element "ul" [] [] None [nativeBare "li"]])
           (Element "ul" [] [] None [nativeBare "li"])).
  - reflexivity.
  - reflexivity.
  - reflexivity.
  - repeat constructor.
  - reflexivity.
Defined.

Lemma dropped_children_every_second_removed_witness :
  exists bs bgone,
    created [h "li" None []] bs
    /\ created [h "li" None []; h "li" None []; h "li" None []] bgone
    /\ childNodesOf
         (Element "ul" [] [] None
            [nativeBare "li"; nativeBare "li"; nativeBare "li"; nativeBare "li"])
       = bs ++ bgone
    /\ updateElement (Some (listView 4)) (Some (listView 1)) 0
         (Some (mountPoint
                  [Element "ul" [] [] None
                     [nativeBare "li"; nativeBare "li"; nativeBare "li";
                      nativeBare "li"]]))
       = mkOutcome
           (Some (withChildNodes
                    (mountPoint
                       [Element "ul" [] [] None
                          [nativeBare "li"; nativeBare "li"; nativeBare "li";
                           nativeBare "li"]])
                    (<[0 := withChildNodes
                              (Element "ul" [] [] None
                                 [nativeBare "li"; nativeBare "li";
                                  nativeBare "li"; nativeBare "li"])
                              (bs ++ everySecond bgone)]>
                       (childNodesOf
                          (mountPoint
                             [Element "ul" [] [] None
                                [nativeBare "li"; nativeBare "li";
                                 nativeBare "li"; nativeBare "li"]])))))
           [OnChild 0 (RemoveChild 1); OnChild 0 (RemoveChild 2)]
           (Some TypeError).
Proof.
  apply (dropped_children_every_second_removed "ul" None
           [h "li" None []] [h "li" None []; h "li" None []; h "li" None []] 0
           (mountPoint
              [Element "ul" [] [] None
                 [nativeBare "li"; nativeBare "li"; nativeBare "li";
                  nativeBare "li"]])
           (Element "ul" [] [] None
              [nativeBare "li"; nativeBare "li"; nativeBare "li";
               nativeBare "li"])).
  - reflexivity.
  - reflexivity.
  - reflexivity.
Defined.
